(** * Ticker Tracker: a shallow embedding of [ticker_tracker.py]

    The script fetches a JSON table of historical quotes per ticker,
    writes it as a [.csv] file (oldest row first) and merges the [.csv]
    files of a run directory into one workbook.

    Everything the script does with the outside world (the HTTP request,
    the file system, the console, pandas) is modelled by explicit state
    passing: a [State] holds the file system and the console, an [Env]
    holds the answers of the outside world, and Python's control flow
    ([return], exceptions, [try]/[except]) is a small monad [M]. *)

From Stdlib Require Import String Ascii ZArith List Lia.
From Stdlib Require Import Floats.SpecFloat.
From stdpp Require Import base option gmap strings list pretty.

Local Open Scope string_scope.
Local Open Scope Z_scope.
Local Open Scope list_scope.

(** ** Result codes (class [ErrorCode], lines 33-40) *)

Inductive ErrorCode :=
| SUCCESS
| ERROR_HTTP_REQUEST
| ERROR_JSON_PARSING
| ERROR_MISSING_FIELDS
| ERROR_IO
| ERROR_DIRECTORY
| ERROR_UNKNOWN.

Definition ErrorCode_value (rc : ErrorCode) : Z :=
  match rc with
  | SUCCESS => 0
  | ERROR_HTTP_REQUEST => 1
  | ERROR_JSON_PARSING => 2
  | ERROR_MISSING_FIELDS => 3
  | ERROR_IO => 4
  | ERROR_DIRECTORY => 5
  | ERROR_UNKNOWN => 6
  end.

Definition ErrorCode_name (rc : ErrorCode) : string :=
  match rc with
  | SUCCESS => "SUCCESS"
  | ERROR_HTTP_REQUEST => "ERROR_HTTP_REQUEST"
  | ERROR_JSON_PARSING => "ERROR_JSON_PARSING"
  | ERROR_MISSING_FIELDS => "ERROR_MISSING_FIELDS"
  | ERROR_IO => "ERROR_IO"
  | ERROR_DIRECTORY => "ERROR_DIRECTORY"
  | ERROR_UNKNOWN => "ERROR_UNKNOWN"
  end.

Global Instance ErrorCode_eq_dec : EqDecision ErrorCode.
Proof. solve_decision. Defined.

(** What a Python function hands back with [return]: a member of
    [ErrorCode], or [None] when the body runs off its end. *)
Definition retval := option ErrorCode.

(** [str(rc)] and [f"{rc}"] of a plain [Enum] member: the class name, a
    dot, the member name. *)
Definition str_retval (r : retval) : string :=
  match r with
  | Some rc => "ErrorCode." +:+ ErrorCode_name rc
  | None => "None"
  end.

(** ** Python values, as [json.loads] builds them

    A [dict] keeps its insertion order, which decides the column order of
    the written file, so it is an association list. *)

#[local] Set Warnings "-register-all".

Inductive pyval :=
| PNone
| PBool (b : bool)
| PInt (n : Z)
| PFloat (f : spec_float)
| PStr (s : string)
| PList (l : list pyval)
| PDict (d : list (string * pyval)).

(** Truth value testing ([not x]). *)
Definition truthy (v : pyval) : bool :=
  match v with
  | PNone => false
  | PBool b => b
  | PInt n => negb (n =? 0)
  | PFloat (S754_zero _) => false
  | PFloat _ => true
  | PStr s => negb (String.eqb s "")
  | PList [] => false
  | PList (_ :: _) => true
  | PDict [] => false
  | PDict (_ :: _) => true
  end.

Definition type_name (v : pyval) : string :=
  match v with
  | PNone => "NoneType"
  | PBool _ => "bool"
  | PInt _ => "int"
  | PFloat _ => "float"
  | PStr _ => "str"
  | PList _ => "list"
  | PDict _ => "dict"
  end.

Fixpoint dict_lookup {A} (d : list (string * A)) (k : string) : option A :=
  match d with
  | [] => None
  | (k', v) :: d' => if String.eqb k' k then Some v else dict_lookup d' k
  end.

(** [d[k] = v]: an existing key keeps its position, a new key goes last. *)
Fixpoint dict_set {A} (d : list (string * A)) (k : string) (v : A)
  : list (string * A) :=
  match d with
  | [] => [(k, v)]
  | (k', v') :: d' =>
      if String.eqb k' k then (k', v) :: d' else (k', v') :: dict_set d' k v
  end.

Definition dict_keys {A} (d : list (string * A)) : list string := map fst d.
Definition dict_values {A} (d : list (string * A)) : list A := map snd d.

(** ** Exceptions

    Only the classes the script's handlers tell apart, ordered by Python's
    subclass relation: [IOError] is [OSError]; [FileNotFoundError] and
    [PermissionError] derive from it; pandas' [EmptyDataError] and
    [ParserError] derive from [ValueError]. All of them derive from
    [Exception]; [KeyboardInterrupt] and [SystemExit], which arrive from
    outside the program, are not modelled. *)

Inductive exn_class :=
| AttributeError
| TypeError
| ValueError
| EmptyDataError
| ParserError
| OSError
| FileNotFoundError
| PermissionError
| OtherException.

Record pyexn := PyExn { exn_cls : exn_class; exn_msg : string }.

Definition is_ValueError (e : pyexn) : bool :=
  match exn_cls e with
  | ValueError | EmptyDataError | ParserError => true
  | _ => false
  end.

Definition is_IOError (e : pyexn) : bool :=
  match exn_cls e with
  | OSError | FileNotFoundError | PermissionError => true
  | _ => false
  end.

Definition is_FileNotFoundError (e : pyexn) : bool :=
  match exn_cls e with FileNotFoundError => true | _ => false end.

Definition is_PermissionError (e : pyexn) : bool :=
  match exn_cls e with PermissionError => true | _ => false end.

Definition is_EmptyDataError (e : pyexn) : bool :=
  match exn_cls e with EmptyDataError => true | _ => false end.

Definition is_ParserError (e : pyexn) : bool :=
  match exn_cls e with ParserError => true | _ => false end.

Definition no_attribute (v : pyval) (attr : string) : pyexn :=
  PyExn AttributeError
    ("'" +:+ type_name v +:+ "' object has no attribute '" +:+ attr +:+ "'").

(** ** The world *)

Record DataFrame := mkDataFrame {
  df_columns : list pyval;
  df_rows : list (list pyval)
}.

(** One [df.to_excel(writer, sheet_name=..., index=...)] call. *)
Record Sheet := mkSheet {
  sheet_name : string;
  sheet_df : DataFrame;
  sheet_index : bool
}.

(** A [.csv] file is the sequence of records handed to
    [csv.writer.writerow]; turning cells into text is the [csv] module's
    business. *)
Inductive node :=
| Dir
| CsvFile (records : list (list pyval))
| XlsxFile (sheets : list Sheet)
| OtherFile (content : string).

Record State := mkState {
  fs : gmap string node;
  console : list string
}.

Record Response := mkResponse {
  status_code : Z;
  json : pyexn + pyval
}.

(** The answers of the outside world.
    - [requests_get url]: the response, or the exception [requests.get]
      raises.
    - [io_fault path = Some (k, e)]: while [path] is written, I/O
      operation number [k] raises [e] (0 is [open], 1 is the [writerow]
      of the header, [i+2] the [writerow] of the [i]-th data row, the one
      after the last [writerow] is the close).
    - [read_csv path nd]: what [pd.read_csv] makes of the node at [path].
    - [excel_fault path = Some (e, leftover)]: writing the workbook raises
      [e] and leaves [leftover] at [path] ([None]: nothing is written).
    - [randint i]: the [i]-th [random.randint(1, 99)].
    - [io_leftover path]: the records that are in the file at [path]
      after a [writerow] or the close has raised. The file object buffers
      what is written to it, so this need not be what was handed to
      [writerow] until then. *)
Record Env := mkEnv {
  requests_get : string -> pyexn + Response;
  io_fault : string -> option (nat * pyexn);
  read_csv : string -> node -> pyexn + DataFrame;
  excel_fault : string -> option (pyexn * option node);
  randint : nat -> Z;
  io_leftover : string -> list (list pyval)
}.

(** ** Python control flow as a monad *)

Inductive result (A : Type) :=
| Val (a : A)                 (* the statement ran to its end *)
| Ret (r : retval)            (* [return r] was executed *)
| Exc (e : pyexn).            (* an exception is propagating *)
Arguments Val {A} a.
Arguments Ret {A} r.
Arguments Exc {A} e.

Definition M (A : Type) : Type := State -> result A * State.

Definition ret {A} (a : A) : M A := fun st => (Val a, st).

Definition bind {A B} (m : M A) (k : A -> M B) : M B :=
  fun st =>
    match m st with
    | (Val a, st') => k a st'
    | (Ret r, st') => (Ret r, st')
    | (Exc e, st') => (Exc e, st')
    end.

Notation "x <- m ;; k" := (bind m (fun x => k))
  (at level 100, m at next level, right associativity, only parsing).
Notation "m ;;; k" := (bind m (fun _ => k))
  (at level 100, right associativity, only parsing).

Definition return_ {A} (rc : ErrorCode) : M A := fun st => (Ret (Some rc), st).
Definition raise {A} (e : pyexn) : M A := fun st => (Exc e, st).

Definition lift {A} (r : pyexn + A) : M A :=
  match r with
  | inl e => raise e
  | inr a => ret a
  end.

Definition print (line : string) : M unit :=
  fun st => (Val tt, mkState (fs st) (console st ++ [line])).

(** [try: body except ...]: [handler e] is the first [except] clause
    that matches [e], if any. *)
Definition try_except {A} (body : M A) (handler : pyexn -> option (M A)) : M A :=
  fun st =>
    match body st with
    | (Exc e, st') =>
        match handler e with
        | Some h => h st'
        | None => (Exc e, st')
        end
    | other => other
    end.

(** How a call ends for the caller. *)
Inductive completion :=
| Return (r : retval)
| Propagate (e : pyexn).

Definition call (body : M unit) : State -> completion * State :=
  fun st =>
    match body st with
    | (Val _, st') => (Return None, st')
    | (Ret r, st') => (Return r, st')
    | (Exc e, st') => (Propagate e, st')
    end.

Definition invoke (f : State -> completion * State) : M retval :=
  fun st =>
    match f st with
    | (Return r, st') => (Val r, st')
    | (Propagate e, st') => (Exc e, st')
    end.

(** ** Strings and paths *)

(** [os.path.join(a, b)] (POSIX): an absolute [b] replaces [a]; no
    separator is added after an empty [a] or one that ends in [/]. *)
Fixpoint ends_with_sep (s : string) : bool :=
  match s with
  | EmptyString => false
  | String c EmptyString => Ascii.eqb c "/"
  | String _ s' => ends_with_sep s'
  end.

Definition os_path_join (a b : string) : string :=
  if String.prefix "/" b then b
  else if String.eqb a "" || ends_with_sep a then a +:+ b
  else a +:+ "/" +:+ b.

(** [os.path.basename(p)]: what follows the last [/]. [cur] is what
    follows the last [/] seen so far. *)
Fixpoint basename_from (cur p : string) : string :=
  match p with
  | EmptyString => cur
  | String c rest =>
      if Ascii.eqb c "/" then basename_from rest rest else basename_from cur rest
  end.

Definition os_path_basename (p : string) : string := basename_from p p.

(** [s.replace(".csv", "")]: every occurrence of [.csv] is removed, from
    left to right. *)
Fixpoint replace_dot_csv (s : string) : string :=
  match s with
  | String "." (String "c" (String "s" (String "v" rest))) => replace_dot_csv rest
  | String c rest => String c (replace_dot_csv rest)
  | EmptyString => EmptyString
  end.

Fixpoint spaces (n : nat) : string :=
  match n with
  | O => ""
  | S n' => String " " (spaces n')
  end.

(** [f"{t:<4}"]: left-justified in a field of width 4. *)
Definition ljust4 (t : string) : string :=
  t +:+ spaces (4 - String.length t).

(** [ticker.upper()], on ASCII letters. *)
Definition upper_ascii (c : ascii) : ascii :=
  let n := nat_of_ascii c in
  if (Nat.leb 97 n && Nat.leb n 122)%bool then ascii_of_nat (n - 32) else c.

Fixpoint upper (s : string) : string :=
  match s with
  | EmptyString => EmptyString
  | String c rest => String (upper_ascii c) (upper rest)
  end.

(** ** Methods and builtins on Python values *)

(** [o.get(k, default)] *)
Definition py_get (o : pyval) (k : string) (default : pyval) : pyexn + pyval :=
  match o with
  | PDict d =>
      match dict_lookup d k with
      | Some v => inr v
      | None => inr default
      end
  | _ => inl (no_attribute o "get")
  end.

(** [list(o.values())] *)
Definition py_values (o : pyval) : pyexn + list pyval :=
  match o with
  | PDict d => inr (dict_values d)
  | _ => inl (no_attribute o "values")
  end.

(** [o.keys()] *)
Definition py_keys (o : pyval) : pyexn + list string :=
  match o with
  | PDict d => inr (dict_keys d)
  | _ => inl (no_attribute o "keys")
  end.

Fixpoint chars (s : string) : list pyval :=
  match s with
  | EmptyString => []
  | String c rest => PStr (String c EmptyString) :: chars rest
  end.

(** [reversed(o)]: a list backwards, a string's characters backwards, a
    dict's keys backwards (Python 3.8 and later). *)
Definition py_reversed (o : pyval) : pyexn + list pyval :=
  match o with
  | PList l => inr (rev l)
  | PStr s => inr (rev (chars s))
  | PDict d => inr (rev (map PStr (dict_keys d)))
  | _ => inl (PyExn TypeError ("'" +:+ type_name o +:+ "' object is not reversible"))
  end.

(** [[row.get(key, "") for key in keys]] *)
Fixpoint gets (row : pyval) (keys : list string) : pyexn + list pyval :=
  match keys with
  | [] => inr []
  | key :: keys' =>
      match py_get row key (PStr "") with
      | inl e => inl e
      | inr v =>
          match gets row keys' with
          | inl e => inl e
          | inr vs => inr (v :: vs)
          end
      end
  end.

(** [[row.get(key, "") for key in headers.keys()]] (line 95) *)
Definition row_values (headers row : pyval) : pyexn + list pyval :=
  match py_keys headers with
  | inl e => inl e
  | inr keys => gets row keys
  end.

(** ** File system primitives *)

Definition os_path_exists (path : string) : M bool :=
  fun st => (Val (bool_decide (is_Some (fs st !! path))), st).

Definition set_file (path : string) (nd : node) : M unit :=
  fun st => (Val tt, mkState (<[path := nd]> (fs st)) (console st)).

Definition append_record (path : string) (rec : list pyval) : M unit :=
  fun st =>
    let old := match fs st !! path with
               | Some (CsvFile rs) => rs
               | _ => []
               end in
    (Val tt, mkState (<[path := CsvFile (old ++ [rec])]> (fs st)) (console st)).

(** I/O operation number [k] on [path] raises when the world says so;
    nothing has changed when it does (this is [open]). *)
Definition io_step (env : Env) (path : string) (k : nat) : M unit :=
  match io_fault env path with
  | Some (k', e) => if Nat.eqb k k' then raise e else ret tt
  | None => ret tt
  end.

(** I/O operation number [k] on a file that is open for writing, a
    [writerow] or the close. When it raises, the file holds what had
    reached the disk by then, which the world tells. *)
Definition io_flush (env : Env) (path : string) (k : nat) : M unit :=
  match io_fault env path with
  | Some (k', e) =>
      if Nat.eqb k k' then
        set_file path (CsvFile (io_leftover env path)) ;;; raise e
      else ret tt
  | None => ret tt
  end.

(** [open(path, "w", newline="")]: the file is created or truncated. *)
Definition open_w (env : Env) (path : string) : M unit :=
  io_step env path 0 ;;; set_file path (CsvFile []).

(** [writer.writerow(rec)], the [k]-th I/O operation on the file. *)
Definition writerow (env : Env) (path : string) (k : nat) (rec : list pyval)
  : M unit :=
  io_flush env path k ;;; append_record path rec.

(** ** [scrape_and_ingest_csv] (lines 43-105) *)

(** The loop of lines 94-96 over the already reversed rows; [k] numbers
    the next [writerow]. *)
Fixpoint write_rows (env : Env) (path : string) (headers : pyval) (k : nat)
    (rows : list pyval) : M unit :=
  match rows with
  | [] => ret tt
  | row :: rest =>
      vs <- lift (row_values headers row) ;;
      writerow env path k vs ;;;
      write_rows env path headers (S k) rest
  end.

(** The [with] block of lines 91-96; leaving it closes the file. *)
Definition write_csv (env : Env) (filepath : string) (headers rows : pyval)
  : M unit :=
  open_w env filepath ;;;
  hs <- lift (py_values headers) ;;
  writerow env filepath 1 hs ;;;
  rrows <- lift (py_reversed rows) ;;
  write_rows env filepath headers 2 rrows ;;;
  io_flush env filepath (2 + length rrows).

(** Lines 53-83: request, status check, JSON parsing, presence checks.
    Hands on [(headers, rows)]. The request headers of lines 49-52 and
    the timeout are constants; they are part of what [requests_get]
    answers to. *)
Definition fetch (env : Env) (url : string) : M (pyval * pyval) :=
  response <- try_except (lift (requests_get env url))
    (fun _ => Some (print ("Error: Failed to connect to: " +:+ url) ;;;
                    return_ ERROR_HTTP_REQUEST)) ;;
  if negb (status_code response =? 200) then
    print ("Error: Bad status_code from: " +:+ url) ;;;
    return_ ERROR_HTTP_REQUEST
  else
  data <- try_except (lift (json response))
    (fun e =>
       if is_ValueError e then
         Some (print ("Error: Failed to parse response as JSON for URL: " +:+ url) ;;;
               return_ ERROR_JSON_PARSING)
       else None) ;;
  inner <- lift (py_get data "data" (PDict [])) ;;
  trades_table <- lift (py_get inner "tradesTable" (PDict [])) ;;
  if negb (truthy trades_table) then
    print ("Error: 'tradesTable' not found in response data for URL: " +:+ url) ;;;
    return_ ERROR_MISSING_FIELDS
  else
  headers <- lift (py_get trades_table "headers" (PDict [])) ;;
  rows <- lift (py_get trades_table "rows" (PList [])) ;;
  if negb (truthy headers) then
    print ("Error: No headers found in the 'tradesTable' for URL: " +:+ url) ;;;
    return_ ERROR_MISSING_FIELDS
  else if negb (truthy rows) then
    print ("Error: No rows found in the 'tradesTable' for URL: " +:+ url) ;;;
    return_ ERROR_MISSING_FIELDS
  else ret (headers, rows).

(** Lines 86-100: the directory check and the write. *)
Definition ingest (env : Env) (url child_dir t : string) (headers rows : pyval)
  : M unit :=
  let filepath := os_path_join child_dir (t +:+ ".csv") in
  there <- os_path_exists child_dir ;;
  if negb there then
    print ("Error: The specified directory '" +:+ child_dir +:+ "' does not exist.") ;;;
    return_ ERROR_DIRECTORY
  else
  try_except (write_csv env filepath headers rows ;;; return_ SUCCESS)
    (fun e =>
       if is_IOError e then
         Some (print ("Error: Failed to write to file for URL " +:+ url +:+ ". "
                      +:+ exn_msg e) ;;;
               return_ ERROR_IO)
       else None).

(** The body of the outer [try] (lines 48-100). *)
Definition scrape_body (env : Env) (url child_dir t : string) : M unit :=
  hr <- fetch env url ;;
  ingest env url child_dir t (fst hr) (snd hr).

Definition scrape_and_ingest_csv (env : Env) (url child_dir t : string)
  : State -> completion * State :=
  call (try_except (scrape_body env url child_dir t)
          (fun e => Some (print ("Unexpected error for URL " +:+ url +:+ ": "
                                 +:+ exn_msg e) ;;;
                          return_ ERROR_UNKNOWN))).

(** ** [combine_csvs_to_excel] (lines 108-154) *)

(** [pd.read_csv(path)] *)
Definition pd_read_csv (env : Env) (path : string) : M DataFrame :=
  fun st =>
    match fs st !! path with
    | Some nd => lift (read_csv env path nd) st
    | None =>
        raise (PyExn FileNotFoundError
                 ("[Errno 2] No such file or directory: '" +:+ path +:+ "'")) st
    end.

(** One round of the loop of lines 116-136. [sheets] is the dictionary
    collected so far; [continue] and the four handlers leave it as it is. *)
Definition read_sheet (env : Env) (child_dir : string)
    (sheets : list (string * DataFrame)) (f : string)
  : M (list (string * DataFrame)) :=
  let csv_file := os_path_join child_dir f in
  try_except
    (there <- os_path_exists csv_file ;;
     if negb there then
       print ("Error: The file " +:+ csv_file +:+ " does not exist.") ;;;
       ret sheets
     else
       df <- pd_read_csv env csv_file ;;
       let sheet_name := replace_dot_csv (os_path_basename csv_file) in
       ret (dict_set sheets sheet_name df))
    (fun e =>
       Some (if is_FileNotFoundError e then
               print ("File not found: " +:+ csv_file) ;;; ret sheets
             else if is_EmptyDataError e then
               print ("Warning: " +:+ csv_file +:+ " is empty.") ;;; ret sheets
             else if is_ParserError e then
               print ("Error: Failed to parse " +:+ csv_file +:+ ".") ;;; ret sheets
             else
               print ("An error occurred while processing " +:+ csv_file +:+ ": "
                      +:+ exn_msg e) ;;;
               ret sheets)).

Fixpoint read_sheets (env : Env) (child_dir : string) (csv_files : list string)
    (sheets : list (string * DataFrame)) : M (list (string * DataFrame)) :=
  match csv_files with
  | [] => ret sheets
  | f :: rest =>
      sheets' <- read_sheet env child_dir sheets f ;;
      read_sheets env child_dir rest sheets'
  end.

(** [df.to_excel(writer, sheet_name=sheet_name, index=False)] for every
    item of [sheets], in the dictionary's order. *)
Definition to_excel_all (sheets : list (string * DataFrame)) : list Sheet :=
  map (fun item => mkSheet (fst item) (snd item) false) sheets.

(** The [with pd.ExcelWriter(...)] block of lines 145-147. *)
Definition write_excel (env : Env) (output_excel : string)
    (sheets : list (string * DataFrame)) : M unit :=
  match excel_fault env output_excel with
  | Some (e, leftover) =>
      match leftover with
      | Some nd => set_file output_excel nd
      | None => ret tt
      end ;;;
      raise e
  | None => set_file output_excel (XlsxFile (to_excel_all sheets))
  end.

Definition combine_body (env : Env) (child_dir : string) (csv_files : list string)
    (output_excel : string) : M unit :=
  sheets <- read_sheets env child_dir csv_files [] ;;
  match sheets with
  | [] =>
      print "No valid CSV files were processed. Exiting..." ;;;
      return_ ERROR_UNKNOWN
  | _ :: _ =>
      try_except
        (write_excel env output_excel sheets ;;;
         print ("Success!: " +:+ output_excel) ;;;
         return_ SUCCESS)
        (fun e =>
           Some (if is_PermissionError e then
                   print ("Error: Permission denied when trying to write to "
                          +:+ output_excel +:+ ".")
                 else
                   print ("An error occurred while writing the Excel file: "
                          +:+ exn_msg e)))
  end.

Definition combine_csvs_to_excel (env : Env) (child_dir : string)
    (csv_files : list string) (output_excel : string)
  : State -> completion * State :=
  call (combine_body env child_dir csv_files output_excel).

(** ** The ticker loop of the main block (lines 176-179)

    [five_weeks_ago] and [current_date] are the two [strftime] results;
    the list of tickers comes from [tickers.py]. *)

Definition url_for (t five_weeks_ago current_date : string) (r : Z) : string :=
  "https://api.nasdaq.com/api/quote/" +:+ t
  +:+ "/historical?assetclass=stocks&fromdate=" +:+ five_weeks_ago
  +:+ "&limit=9999&todate=" +:+ current_date
  +:+ "&random=" +:+ pretty r.

(** The line printed for a ticker: [f"{t:<4} - {rc}"]. *)
Definition report_line (t : string) (rc : retval) : string :=
  ljust4 t +:+ " - " +:+ str_retval rc.

(** One round of the loop; [i] counts the rounds. *)
Definition process_ticker (env : Env) (five_weeks_ago current_date child_dir : string)
    (i : nat) (t : string) : M unit :=
  let url := url_for t five_weeks_ago current_date (randint env i) in
  rc <- invoke (scrape_and_ingest_csv env url child_dir t) ;;
  print (report_line t rc).

Fixpoint tickers_loop (env : Env) (five_weeks_ago current_date child_dir : string)
    (i : nat) (ts : list string) : M unit :=
  match ts with
  | [] => ret tt
  | t :: rest =>
      process_ticker env five_weeks_ago current_date child_dir i t ;;;
      tickers_loop env five_weeks_ago current_date child_dir (S i) rest
  end.

Definition main_tickers (env : Env) (five_weeks_ago current_date child_dir : string)
    (tickers : list string) : M unit :=
  tickers_loop env five_weeks_ago current_date child_dir 0 (map upper tickers).

(** ** Notions used to state the properties *)

(** The row record of key [key], or the empty string ([row.get(key, "")]
    on a dict). *)
Definition project (keys : list string) (row : list (string * pyval))
  : list pyval :=
  map (fun key => default (PStr "") (dict_lookup row key)) keys.

Fixpoint as_dicts (l : list pyval) : option (list (list (string * pyval))) :=
  match l with
  | [] => Some []
  | PDict d :: l' =>
      match as_dicts l' with
      | Some ds => Some (d :: ds)
      | None => None
      end
  | _ :: _ => None
  end.

(** The header mapping and the row records of a body of the shape
    [{data: {tradesTable: {headers: {...}, rows: [{...}, ...]}}}]. *)
Definition table_of_body (data : pyval)
  : option (list (string * pyval) * list (list (string * pyval))) :=
  match data with
  | PDict d =>
      match dict_lookup d "data" with
      | Some (PDict inner) =>
          match dict_lookup inner "tradesTable" with
          | Some (PDict table) =>
              match dict_lookup table "headers", dict_lookup table "rows" with
              | Some (PDict hd), Some (PList rows) =>
                  match as_dicts rows with
                  | Some rds => Some (hd, rds)
                  | None => None
                  end
              | _, _ => None
              end
          | _ => None
          end
      | _ => None
      end
  | _ => None
  end.

(** The table the API delivers for [url], when the request succeeds and
    the body parses. *)
Definition api_table (env : Env) (url : string)
  : option (list (string * pyval) * list (list (string * pyval))) :=
  match requests_get env url with
  | inr resp =>
      match json resp with
      | inr data => table_of_body data
      | inl _ => None
      end
  | inl _ => None
  end.

(** What the combiner gets out of the file [f] of [child_dir]: its data
    frame, or nothing when the file does not exist or [pd.read_csv]
    raises. *)
Definition read_ok (env : Env) (files : gmap string node) (child_dir f : string)
  : option DataFrame :=
  match files !! os_path_join child_dir f with
  | Some nd =>
      match read_csv env (os_path_join child_dir f) nd with
      | inr df => Some df
      | inl _ => None
      end
  | None => None
  end.

(** The sheet name the combiner gives to the file [f] of [child_dir]
    (line 126). *)
Definition sheet_name_of (child_dir f : string) : string :=
  replace_dot_csv (os_path_basename (os_path_join child_dir f)).

(** The sheets of the files that are read, in the dictionary's order. *)
Fixpoint sheets_of (env : Env) (files : gmap string node) (child_dir : string)
    (csv_files : list string) (sheets : list (string * DataFrame))
  : list (string * DataFrame) :=
  match csv_files with
  | [] => sheets
  | f :: rest =>
      sheets_of env files child_dir rest
        (match read_ok env files child_dir f with
         | Some df => dict_set sheets (sheet_name_of child_dir f) df
         | None => sheets
         end)
  end.

(** The files of [csv_files] that the combiner does not get a data
    frame out of. *)
Definition skipped (env : Env) (files : gmap string node) (child_dir : string)
    (csv_files : list string) : list string :=
  List.filter (fun f => match read_ok env files child_dir f with
                        | Some _ => false
                        | None => true
                        end) csv_files.

(** [s] has a [/] in it. *)
Fixpoint has_sep (s : string) : bool :=
  match s with
  | EmptyString => false
  | String c rest => Ascii.eqb c "/" || has_sep rest
  end.

(** A filename with the [.csv] extension stripped from its end, as the
    specification words the sheet name. *)
Fixpoint strip_csv_suffix (s : string) : string :=
  match s with
  | String "." (String "c" (String "s" (String "v" EmptyString))) => EmptyString
  | String c rest => String c (strip_csv_suffix rest)
  | EmptyString => EmptyString
  end.

(** The line for a ticker as the specification words it: the ticker,
    [ - ] and the bare name of the code. *)
Definition bare_report_line (t : string) (rc : ErrorCode) : string :=
  t +:+ " - " +:+ ErrorCode_name rc.

(** The diagnostic of the two handlers of lines 151-154. *)
Definition write_diagnostic (output_excel : string) (e : pyexn) : string :=
  if is_PermissionError e then
    "Error: Permission denied when trying to write to " +:+ output_excel +:+ "."
  else "An error occurred while writing the Excel file: " +:+ exn_msg e.

(** [m] prints nothing. *)
Definition quiet {A} (m : M A) : Prop :=
  forall st r st', m st = (r, st') -> console st' = console st.

(** *** The fetch's priority order, in the specification's words

    Transport failure, then a status other than 200, then a body that
    does not parse, then an absent or empty [tradesTable] section, then an
    empty header mapping, then an empty row sequence; otherwise the fetch
    is treated as successful ([None]). *)

Definition trades_table_section (data : pyval) : option pyval :=
  match data with
  | PDict d =>
      match dict_lookup d "data" with
      | Some (PDict inner) => dict_lookup inner "tradesTable"
      | _ => None
      end
  | _ => None
  end.

Definition member (o : pyval) (k : string) : option pyval :=
  match o with
  | PDict d => dict_lookup d k
  | _ => None
  end.

Definition absent_or_empty (o : option pyval) : bool :=
  match o with
  | Some v => negb (truthy v)
  | None => true
  end.

Definition spec_classify (answer : pyexn + Response) : option ErrorCode :=
  match answer with
  | inl _ => Some ERROR_HTTP_REQUEST
  | inr resp =>
      if negb (status_code resp =? 200) then Some ERROR_HTTP_REQUEST
      else
        match json resp with
        | inl _ => Some ERROR_JSON_PARSING
        | inr data =>
            if absent_or_empty (trades_table_section data) then
              Some ERROR_MISSING_FIELDS
            else if absent_or_empty
                      (from_option (fun table => member table "headers") None
                         (trades_table_section data)) then
              Some ERROR_MISSING_FIELDS
            else if absent_or_empty
                      (from_option (fun table => member table "rows") None
                         (trades_table_section data)) then
              Some ERROR_MISSING_FIELDS
            else None
        end
  end.

(** How the fetch stage of the code ends, read the same way; an
    exception that leaves it ends in the generic handler. *)
Definition code_classify (r : result (pyval * pyval)) : option ErrorCode :=
  match r with
  | Val _ => None
  | Ret rc => rc
  | Exc _ => Some ERROR_UNKNOWN
  end.

(** Bodies on which no [.get] of lines 71-77 is called on something
    that is not a dict: an object whose [data] member is absent or an
    object, whose [tradesTable] member is absent, falsy or an object. *)
Definition expected_shape (data : pyval) : bool :=
  match data with
  | PDict d =>
      match dict_lookup d "data" with
      | None => true
      | Some (PDict inner) =>
          match dict_lookup inner "tradesTable" with
          | None => true
          | Some (PDict _) => true
          | Some table => negb (truthy table)
          end
      | Some _ => false
      end
  | _ => false
  end.

(** [m] leaves every path other than [path] as it is. *)
Definition only_touches {A} (path : string) (m : M A) : Prop :=
  forall st r st' p, m st = (r, st') -> p <> path -> fs st' !! p = fs st !! p.

(** The records of the ticker's file when the whole table is written. *)
Definition full_file (hd : list (string * pyval))
    (rows : list (list (string * pyval))) : list (list pyval) :=
  dict_values hd :: map (project (dict_keys hd)) (rev rows).

(** The paths the ticker loop may write. *)
Definition ticker_paths (child_dir : string) (ts : list string) : list string :=
  map (fun t => os_path_join child_dir (t +:+ ".csv")) ts.

(** [m] removes no path. *)
Definition never_removes {A} (m : M A) : Prop :=
  forall st r st' p, m st = (r, st') -> is_Some (fs st !! p) -> is_Some (fs st' !! p).

(** The bodies that lines 71-83 answer with [ERROR_MISSING_FIELDS]: an
    object without [data], or whose [data] is an object without
    [tradesTable], or with a falsy [tradesTable], or with a [tradesTable]
    object whose [headers] or [rows] is absent or falsy. *)
Definition reports_missing_fields (data : pyval) : bool :=
  match data with
  | PDict d =>
      match dict_lookup d "data" with
      | None => true
      | Some (PDict inner) =>
          match dict_lookup inner "tradesTable" with
          | None => true
          | Some (PDict tb) =>
              negb (truthy (PDict tb))
              || negb (truthy (default (PDict []) (dict_lookup tb "headers")))
              || negb (truthy (default (PList []) (dict_lookup tb "rows")))
          | Some table => negb (truthy table)
          end
      | Some _ => false
      end
  | _ => false
  end.

(** [m] never executes [return]. *)
Definition no_ret {A} (m : M A) : Prop :=
  forall st rv st', m st <> (Ret rv, st').

(** ** Example worlds *)

Module Examples.

Definition quiet_env (answer : pyexn + Response) : Env :=
  mkEnv (fun _ => answer) (fun _ => None)
        (fun _ nd =>
           match nd with
           | CsvFile (hs :: rs) => inr (mkDataFrame hs rs)
           | CsvFile [] => inl (PyExn EmptyDataError "No columns to parse from file")
           | _ => inl (PyExn ParserError "Error tokenizing data")
           end)
        (fun _ => None) (fun _ => 7) (fun _ => []).

Definition aapl_body : pyval :=
  PDict [("data", PDict [("tradesTable", PDict [
    ("headers", PDict [("date", PStr "Date"); ("close", PStr "Close/Last");
                       ("volume", PStr "Volume")]);
    ("rows", PList [
       PDict [("date", PStr "11/02/2026"); ("close", PStr "$270.04");
              ("volume", PStr "41,064,570")];
       PDict [("date", PStr "10/30/2026"); ("volume", PStr "86,167,120")];
       PDict [("date", PStr "10/29/2026"); ("close", PStr "$271.40");
              ("volume", PStr "51,086,740")]])])])].

Definition aapl_env : Env := quiet_env (inr (mkResponse 200 (inr aapl_body))).

(** A body whose [data] member is [null]. *)
Definition null_body : pyval :=
  PDict [("data", PNone); ("message", PNone)].

Definition start : State := mkState {[ "out" := Dir ]} [].

Definition aapl_sheet : list (list pyval) :=
  [[PStr "Date"; PStr "Close/Last"]; [PStr "10/30/2026"; PStr "$1"]].

Definition run_dir : State :=
  mkState {[ "out" := Dir; "out/AAPL.csv" := CsvFile aapl_sheet;
             "out/notes.txt" := OtherFile "hello" ]} [].

Definition locked_env : Env :=
  mkEnv (fun _ => inl (PyExn OtherException "no network")) (fun _ => None)
        (read_csv aapl_env)
        (fun _ => Some (PyExn PermissionError "[Errno 13] Permission denied", None))
        (fun _ => 7) (fun _ => []).

Definition other_sheet : list (list pyval) :=
  [[PStr "Date"; PStr "Close/Last"]; [PStr "10/29/2026"; PStr "$9"]].

(** A run directory in which two file names differ by a second
    [.csv]. *)
Definition twin_dir : State :=
  mkState {[ "out" := Dir; "out/AAPL.csv" := CsvFile aapl_sheet;
             "out/AAPL.csv.csv" := CsvFile other_sheet ]} [].

Definition bad_status_env : Env :=
  quiet_env (inr (mkResponse 404 (inl (PyExn ValueError "Expecting value")))).

(** No network: [requests.get] raises. *)
Definition offline_env : Env :=
  quiet_env (inl (PyExn OtherException "Max retries exceeded")).

(** The body is not JSON. *)
Definition html_env : Env :=
  quiet_env (inr (mkResponse 200 (inl (PyExn ValueError "Expecting value")))).

(** The table is there, without rows. *)
Definition no_rows_body : pyval :=
  PDict [("data", PDict [("tradesTable", PDict [
    ("headers", PDict [("date", PStr "Date")]); ("rows", PList [])])])].

Definition no_rows_env : Env := quiet_env (inr (mkResponse 200 (inr no_rows_body))).

(** The disk fails at I/O operation [k] of every file, before anything
    has reached it. *)
Definition faulty_env (k : nat) (e : pyexn) : Env :=
  mkEnv (requests_get aapl_env) (fun _ => Some (k, e)) (read_csv aapl_env)
        (fun _ => None) (fun _ => 7) (fun _ => []).

Definition disk_full : pyexn := PyExn OSError "[Errno 28] No space left on device".

(** The header mapping is a list. *)
Definition list_headers_body : pyval :=
  PDict [("data", PDict [("tradesTable", PDict [
    ("headers", PList [PStr "Date"]);
    ("rows", PList [PDict [("date", PStr "11/02/2026")]])])])].

Definition list_headers_env : Env :=
  quiet_env (inr (mkResponse 200 (inr list_headers_body))).

(** The second of three rows is a string. *)
Definition bad_row_body : pyval :=
  PDict [("data", PDict [("tradesTable", PDict [
    ("headers", PDict [("date", PStr "Date"); ("close", PStr "Close/Last")]);
    ("rows", PList [
       PDict [("date", PStr "11/02/2026"); ("close", PStr "$270.04")];
       PStr "n/a";
       PDict [("date", PStr "10/29/2026"); ("close", PStr "$271.40")]])])])].

Definition bad_row_env : Env := quiet_env (inr (mkResponse 200 (inr bad_row_body))).

End Examples.

(** Case analysis on the eight bits of a character. *)
Ltac ascii_cases c := destruct c as [[] [] [] [] [] [] [] []].

(** * Properties *)

(** ** The monad *)

Lemma bind_inv {A B} (m : M A) (k : A -> M B) st r st' :
  bind m k st = (r, st') ->
  (exists a st1, m st = (Val a, st1) /\ k a st1 = (r, st'))
  \/ (exists rv, m st = (Ret rv, st') /\ r = Ret rv)
  \/ (exists e, m st = (Exc e, st') /\ r = Exc e).
Proof.
  unfold bind. destruct (m st) as [[a|rv|e] st1]; intros H.
  - left. eauto.
  - right. left. simplify_eq. eauto.
  - right. right. simplify_eq. eauto.
Qed.

Lemma bind_val {A B} (m : M A) (k : A -> M B) st a st1 :
  m st = (Val a, st1) -> bind m k st = k a st1.
Proof. unfold bind. intros ->. reflexivity. Qed.

(** ** The fetch stage *)

(** A fetch that hands on a table has passed every check, and has
    printed nothing. *)
Lemma fetch_val env url st h r st' :
  fetch env url st = (Val (h, r), st') ->
  st' = st /\
  exists resp data inner table,
    requests_get env url = inr resp /\ status_code resp = 200 /\
    json resp = inr data /\
    py_get data "data" (PDict []) = inr inner /\
    py_get inner "tradesTable" (PDict []) = inr table /\
    truthy table = true /\
    py_get table "headers" (PDict []) = inr h /\
    py_get table "rows" (PList []) = inr r /\
    truthy h = true /\ truthy r = true.
Proof.
  unfold fetch, bind, try_except, lift, raise, ret, return_, print.
  intros H.
  repeat (case_match; simplify_eq; try discriminate).
  split; [reflexivity|].
  rewrite negb_false_iff in *.
  match goal with Hs : (_ =? 200) = true |- _ => apply Z.eqb_eq in Hs end.
  eauto 20.
Qed.

(** ** The write stage *)

Lemma gets_dict rd keys : gets (PDict rd) keys = inr (project keys rd).
Proof.
  induction keys as [|key keys IH]; simpl; [reflexivity|].
  rewrite IH. destruct (dict_lookup rd key); reflexivity.
Qed.

Lemma gets_inr_dict row keys vs :
  keys <> [] -> gets row keys = inr vs -> exists rd, row = PDict rd.
Proof.
  destruct keys as [|key keys]; [congruence|]. intros _.
  destruct row; simpl; try discriminate. eauto.
Qed.

Lemma project_length keys rd : length (project keys rd) = length keys.
Proof. unfold project. apply length_map. Qed.

Lemma project_lookup keys rd j key :
  keys !! j = Some key ->
  project keys rd !! j = Some (default (PStr "") (dict_lookup rd key)).
Proof. intros H. unfold project. rewrite list_lookup_fmap, H. reflexivity. Qed.

Lemma as_dicts_map rds : as_dicts (map PDict rds) = Some rds.
Proof. induction rds as [|rd rds IH]; simpl; [reflexivity|]. rewrite IH. reflexivity. Qed.

Lemma dict_keys_nonempty {A} (d : list (string * A)) : d <> [] -> dict_keys d <> [].
Proof. destruct d; [congruence|discriminate]. Qed.

Lemma io_step_cases env path k st :
  io_step env path k st = (Val tt, st)
  \/ exists e, io_step env path k st = (Exc e, st).
Proof.
  unfold io_step, raise, ret.
  destruct (io_fault env path) as [[k' e]|]; [|left; reflexivity].
  destruct (Nat.eqb k k'); [right; eauto | left; reflexivity].
Qed.

Lemma io_flush_cases env path k st :
  io_flush env path k st = (Val tt, st)
  \/ exists e,
       io_flush env path k st
       = (Exc e, mkState (<[path := CsvFile (io_leftover env path)]> (fs st))
                         (console st)).
Proof.
  unfold io_flush, bind, set_file, raise, ret.
  destruct (io_fault env path) as [[k' e]|]; [|left; reflexivity].
  destruct (Nat.eqb k k'); [right; eauto | left; reflexivity].
Qed.

Lemma writerow_val env path k rec st st' old :
  fs st !! path = Some (CsvFile old) ->
  writerow env path k rec st = (Val tt, st') ->
  st' = mkState (<[path := CsvFile (old ++ [rec])]> (fs st)) (console st).
Proof.
  intros Hold. unfold writerow, bind.
  destruct (io_flush_cases env path k st) as [->|[e ->]]; [|discriminate].
  unfold append_record. rewrite Hold. intros H. simplify_eq. reflexivity.
Qed.

Lemma write_rows_val env path hd rows : forall k st st' old,
  hd <> [] ->
  fs st !! path = Some (CsvFile old) ->
  write_rows env path (PDict hd) k rows st = (Val tt, st') ->
  exists rds, rows = map PDict rds /\
    st' = mkState (<[path := CsvFile (old ++ map (project (dict_keys hd)) rds)]> (fs st))
                  (console st).
Proof.
  induction rows as [|row rows IH]; intros k st st' old Hhd Hold H; simpl in H.
  - exists []. unfold ret in H. simplify_eq. simpl. rewrite app_nil_r.
    rewrite insert_id by assumption.
    split; [reflexivity|]. destruct st'; reflexivity.
  - apply bind_inv in H as [(vs & st1 & H1 & H)|[(rv & _ & ?)|(e & _ & ?)]];
      [|discriminate..].
    unfold lift, row_values in H1. simpl in H1.
    destruct (gets row (dict_keys hd)) as [e|vs'] eqn:Eg; [discriminate|].
    unfold ret in H1. simplify_eq.
    destruct (gets_inr_dict _ _ _ (dict_keys_nonempty _ Hhd) Eg) as [rd ->].
    rewrite gets_dict in Eg. simplify_eq.
    apply bind_inv in H as [(u & st2 & H2 & H)|[(rv & _ & ?)|(e & _ & ?)]];
      [|discriminate..].
    destruct u. apply (writerow_val _ _ _ _ _ _ old Hold) in H2. subst st2.
    apply IH with (old := old ++ [project (dict_keys hd) rd]) in H;
      [|assumption|simpl; apply lookup_insert_eq].
    destruct H as (rds & -> & ->). exists (rd :: rds). split; [reflexivity|].
    simpl. rewrite insert_insert_eq, <- app_assoc. reflexivity.
Qed.

Lemma chars_not_dicts s rds : s <> "" -> chars s <> map PDict rds.
Proof. destruct s; [congruence|]. destruct rds; simpl; congruence. Qed.

Lemma rev_eq_map_PDict (l : list pyval) rds :
  rev l = map PDict rds -> l = map PDict (rev rds).
Proof. intros H. rewrite <- (rev_involutive l), H, map_rev. reflexivity. Qed.

(** The rows that [reversed] and the loop accept are lists of dicts. *)
Lemma py_reversed_dicts rows rrows rds :
  truthy rows = true -> py_reversed rows = inr rrows -> rrows = map PDict rds ->
  rows = PList (map PDict (rev rds)).
Proof.
  intros Ht Hr ->. destruct rows as [| | | |s|l|d]; simpl in Hr; try discriminate.
  - injection Hr as Hr. apply rev_eq_map_PDict in Hr.
    exfalso. apply (chars_not_dicts s (rev rds)); [|assumption].
    intros ->. discriminate.
  - injection Hr as Hr. apply rev_eq_map_PDict in Hr. rewrite Hr. reflexivity.
  - injection Hr as Hr. apply rev_eq_map_PDict in Hr.
    destruct d as [|[k v] d]; [discriminate|].
    destruct (rev rds); discriminate.
Qed.

Lemma write_csv_val env path headers rows st st' :
  truthy headers = true -> truthy rows = true ->
  write_csv env path headers rows st = (Val tt, st') ->
  exists hd rds, headers = PDict hd /\ rows = PList (map PDict rds) /\
    st' = mkState
            (<[path := CsvFile (dict_values hd
                                :: map (project (dict_keys hd)) (rev rds))]> (fs st))
            (console st).
Proof.
  intros Hh Hr H. unfold write_csv in H.
  apply bind_inv in H as [([] & st1 & H1 & H)|[(rv & _ & ?)|(e & _ & ?)]];
    [|discriminate..].
  unfold open_w, bind, set_file in H1.
  destruct (io_step_cases env path 0 st) as [E|[e E]]; rewrite E in H1;
    [|discriminate].
  injection H1 as <-.
  apply bind_inv in H as [(hs & st2 & H2 & H)|[(rv & _ & ?)|(e & _ & ?)]];
    [|discriminate..].
  destruct headers as [| | | | | |hd]; try discriminate.
  unfold lift, py_values, ret in H2. injection H2 as <- <-.
  apply bind_inv in H as [([] & st3 & H3 & H)|[(rv & _ & ?)|(e & _ & ?)]];
    [|discriminate..].
  apply (writerow_val _ _ _ _ _ _ []) in H3; [|simpl; apply lookup_insert_eq].
  simpl in H3. rewrite insert_insert_eq in H3. subst st3.
  apply bind_inv in H as [(rrows & st4 & H4 & H)|[(rv & _ & ?)|(e & _ & ?)]];
    [|discriminate..].
  unfold lift in H4. destruct (py_reversed rows) as [e|rr] eqn:Erev; [discriminate|].
  unfold ret in H4. injection H4 as <- <-.
  apply bind_inv in H as [([] & st5 & H5 & H)|[(rv & _ & ?)|(e & _ & ?)]];
    [|discriminate..].
  apply write_rows_val with (old := [dict_values hd]) in H5;
    [| destruct hd; [discriminate|congruence] | simpl; apply lookup_insert_eq ].
  destruct H5 as (rds' & -> & ->).
  match type of H with
  | io_flush ?ev ?p ?n ?s = _ =>
      destruct (io_flush_cases ev p n s) as [E'|[e E']]; rewrite E' in H;
        [|discriminate]
  end.
  injection H as <-.
  exists hd, (rev rds'). split; [reflexivity|]. split.
  - apply (py_reversed_dicts _ _ _ Hr Erev eq_refl).
  - simpl. rewrite insert_insert_eq, rev_involutive. reflexivity.
Qed.

Lemma py_get_truthy o k v :
  py_get o k (PDict []) = inr v -> truthy v = true ->
  exists d, o = PDict d /\ dict_lookup d k = Some v.
Proof.
  destruct o; simpl; try discriminate.
  destruct (dict_lookup d k) eqn:E; intros H Ht; simplify_eq; eauto.
Qed.

Lemma py_get_truthy_list o k v :
  py_get o k (PList []) = inr v -> truthy v = true ->
  exists d, o = PDict d /\ dict_lookup d k = Some v.
Proof.
  destruct o; simpl; try discriminate.
  destruct (dict_lookup d k) eqn:E; intros H Ht; simplify_eq; eauto.
Qed.

(** A fetch that hands on dicts of the right kind has read them from a
    body of the documented shape. *)
Lemma fetch_val_table env url st hd rds st' :
  fetch env url st = (Val (PDict hd, PList (map PDict rds)), st') ->
  api_table env url = Some (hd, rds) /\ hd <> [] /\ rds <> [].
Proof.
  intros H. apply fetch_val in H as (_ & resp & data & inner & table & H).
  destruct H as (Hreq & _ & Hjson & Hd & Ht & Htt & Hh & Hr & Hht & Hrt).
  destruct (py_get_truthy _ _ _ Ht Htt) as (i & -> & Hi).
  assert (Hit : truthy (PDict i) = true) by (destruct i; [discriminate|reflexivity]).
  destruct (py_get_truthy _ _ _ Hd Hit) as (d & -> & Hdd).
  destruct (py_get_truthy _ _ _ Hh Hht) as (tb & -> & Hhh).
  destruct (py_get_truthy_list _ _ _ Hr Hrt) as (tb' & Heq & Hrr).
  injection Heq as <-.
  split; [|split].
  - unfold api_table. rewrite Hreq, Hjson. simpl. rewrite Hdd, Hi, Hhh, Hrr.
    rewrite as_dicts_map. reflexivity.
  - intros ->. discriminate.
  - intros ->. discriminate.
Qed.

Lemma fetch_not_success env url st st' :
  fetch env url st <> (Ret (Some SUCCESS), st').
Proof.
  unfold fetch, bind, try_except, lift, raise, ret, return_, print.
  intros H.
  repeat (case_match; simplify_eq; try discriminate).
Qed.

Lemma no_ret_bind {A B} (m : M A) (k : A -> M B) :
  no_ret m -> (forall a, no_ret (k a)) -> no_ret (bind m k).
Proof.
  intros Hm Hk st rv st' H.
  apply bind_inv in H as [(a & st1 & _ & H)|[(rv' & H & _)|(e & _ & ?)]].
  - exact (Hk _ _ _ _ H).
  - exact (Hm _ _ _ H).
  - discriminate.
Qed.

Lemma no_ret_lift {A} (r : pyexn + A) : no_ret (lift r).
Proof. intros st rv st'. destruct r; discriminate. Qed.

Lemma no_ret_io_step env path k : no_ret (io_step env path k).
Proof.
  intros st rv st'. destruct (io_step_cases env path k st) as [->|[e ->]]; discriminate.
Qed.

Lemma no_ret_io_flush env path k : no_ret (io_flush env path k).
Proof.
  intros st rv st'. destruct (io_flush_cases env path k st) as [->|[e ->]]; discriminate.
Qed.

Lemma no_ret_writerow env path k rec : no_ret (writerow env path k rec).
Proof.
  apply no_ret_bind; [apply no_ret_io_flush|]. intros _ st rv st'. discriminate.
Qed.

Lemma no_ret_write_rows env path headers rows : forall k,
  no_ret (write_rows env path headers k rows).
Proof.
  induction rows as [|row rows IH]; intros k; simpl.
  - intros st rv st'. discriminate.
  - apply no_ret_bind; [apply no_ret_lift|]. intros vs.
    apply no_ret_bind; [apply no_ret_writerow|]. intros _. apply IH.
Qed.

(** Nothing in the [with] block executes [return]. *)
Lemma no_ret_write_csv env path headers rows :
  no_ret (write_csv env path headers rows).
Proof.
  unfold write_csv.
  apply no_ret_bind.
  { apply no_ret_bind; [apply no_ret_io_step|]. intros _ st rv st'. discriminate. }
  intros _. apply no_ret_bind; [apply no_ret_lift|]. intros hs.
  apply no_ret_bind; [apply no_ret_writerow|]. intros _.
  apply no_ret_bind; [apply no_ret_lift|]. intros rrows.
  apply no_ret_bind; [apply no_ret_write_rows|]. intros _.
  apply no_ret_io_flush.
Qed.

Lemma ingest_success env url child_dir t h r st st' :
  ingest env url child_dir t h r st = (Ret (Some SUCCESS), st') ->
  is_Some (fs st !! child_dir) /\
  write_csv env (os_path_join child_dir (t +:+ ".csv")) h r st = (Val tt, st').
Proof.
  unfold ingest, bind at 1, os_path_exists.
  case_bool_decide as Hdir; simpl.
  - unfold try_except, bind, return_, print.
    destruct (write_csv _ _ _ _ st) as [[[]|rv|e] st1] eqn:E; intros H.
    + simplify_eq. auto.
    + exfalso. exact (no_ret_write_csv _ _ _ _ _ _ _ E).
    + destruct (is_IOError e); simplify_eq.
  - unfold print, return_. intros H. simplify_eq.
Qed.

(** ** [scrape_and_ingest_csv] as a whole *)

Lemma ingest_no_val env url child_dir t h r st u st' :
  ingest env url child_dir t h r st <> (Val u, st').
Proof.
  unfold ingest, bind, try_except, os_path_exists, print, return_.
  intros H. repeat (case_match; simplify_eq).
Qed.

Lemma scrape_body_no_val env url child_dir t st u st' :
  scrape_body env url child_dir t st <> (Val u, st').
Proof.
  unfold scrape_body. intros H.
  apply bind_inv in H as [(hr & st1 & _ & H)|[(rv & _ & ?)|(e & _ & ?)]];
    [|discriminate..].
  exact (ingest_no_val _ _ _ _ _ _ _ _ _ H).
Qed.

(** What a run that ends in [SUCCESS] has read and written. *)
Lemma scrape_success env url child_dir t st st' :
  scrape_and_ingest_csv env url child_dir t st = (Return (Some SUCCESS), st') ->
  exists hd rds,
    api_table env url = Some (hd, rds) /\ hd <> [] /\ rds <> [] /\
    is_Some (fs st !! child_dir) /\
    st' = mkState
            (<[os_path_join child_dir (t +:+ ".csv") :=
                 CsvFile (dict_values hd :: map (project (dict_keys hd)) (rev rds))]>
               (fs st))
            (console st).
Proof.
  unfold scrape_and_ingest_csv, call, try_except.
  destruct (scrape_body env url child_dir t st) as [[u|rv|e] s1] eqn:E.
  - discriminate.
  - intros H. injection H as -> ->. unfold scrape_body in E.
    apply bind_inv in E as [([h r] & st1 & Hf & Hi)|[(rv & Hf & ?)|(e & _ & ?)]];
      [| |discriminate].
    + simpl in Hi. destruct (fetch_val _ _ _ _ _ _ Hf) as (-> & resp & data & inner & table & Hs).
      destruct Hs as (_ & _ & _ & _ & _ & _ & _ & _ & Hh & Hr).
      apply ingest_success in Hi as [Hdir Hw].
      destruct (write_csv_val _ _ _ _ _ _ Hh Hr Hw) as (hd & rds & -> & -> & ->).
      exists hd, rds. apply fetch_val_table in Hf as (Ht & Hhd & Hrds). auto.
    + simplify_eq. exfalso. exact (fetch_not_success _ _ _ _ Hf).
  - unfold bind, print, return_. simpl. discriminate.
Qed.

(** C1. When the fetch-and-write of a ticker returns [SUCCESS], the
    ticker's file holds the header line followed by one data line per row
    of the API's table, and the data lines are the rows' lines in reverse
    of the delivered order. *)
Theorem csv_lines_are_rows_reversed env url child_dir t st st' :
  scrape_and_ingest_csv env url child_dir t st = (Return (Some SUCCESS), st') ->
  exists hd rows header data_lines,
    api_table env url = Some (hd, rows) /\
    fs st' !! os_path_join child_dir (t +:+ ".csv")
      = Some (CsvFile (header :: data_lines)) /\
    header = dict_values hd /\
    length data_lines = length rows /\
    data_lines = rev (map (project (dict_keys hd)) rows).
Proof.
  intros H. apply scrape_success in H as (hd & rds & Ht & _ & _ & _ & ->).
  exists hd, rds, (dict_values hd), (map (project (dict_keys hd)) (rev rds)).
  split; [assumption|]. split; [simpl; apply lookup_insert_eq|].
  split; [reflexivity|]. split.
  - rewrite length_map, length_rev. reflexivity.
  - apply map_rev.
Qed.

Lemma csv_lines_are_rows_reversed_witness :
  let st' := snd (scrape_and_ingest_csv Examples.aapl_env "u" "out" "AAPL"
                    Examples.start) in
  scrape_and_ingest_csv Examples.aapl_env "u" "out" "AAPL" Examples.start
    = (Return (Some SUCCESS), st') /\
  exists hd rows header data_lines,
    api_table Examples.aapl_env "u" = Some (hd, rows) /\
    fs st' !! os_path_join "out" ("AAPL" +:+ ".csv")
      = Some (CsvFile (header :: data_lines)) /\
    header = dict_values hd /\
    length data_lines = length rows /\
    data_lines = rev (map (project (dict_keys hd)) rows).
Proof.
  intros st'. split; [reflexivity|].
  apply (csv_lines_are_rows_reversed Examples.aapl_env "u" "out" "AAPL"
           Examples.start st').
  reflexivity.
Defined.

(** C4. In the file of a successful run, the line of every row has one
    field per key of the header mapping, in the mapping's order, and the
    field of a key that the row record lacks is the empty string; every
    row has its line. *)
Theorem missing_key_is_empty_field env url child_dir t st st' :
  scrape_and_ingest_csv env url child_dir t st = (Return (Some SUCCESS), st') ->
  exists hd rows lines,
    api_table env url = Some (hd, rows) /\
    fs st' !! os_path_join child_dir (t +:+ ".csv") = Some (CsvFile lines) /\
    length lines = S (length rows) /\
    forall i row, rows !! i = Some row ->
      exists line,
        lines !! (length rows - i)%nat = Some line /\
        length line = length (dict_keys hd) /\
        forall j key, dict_keys hd !! j = Some key ->
          dict_lookup row key = None -> line !! j = Some (PStr "").
Proof.
  intros H. apply scrape_success in H as (hd & rds & Ht & _ & _ & _ & ->).
  exists hd, rds, (dict_values hd :: map (project (dict_keys hd)) (rev rds)).
  split; [assumption|]. split; [simpl; apply lookup_insert_eq|].
  split; [simpl; rewrite length_map, length_rev; reflexivity|].
  intros i row Hi. exists (project (dict_keys hd) row).
  assert (Hlt : (i < length rds)%nat) by (eapply lookup_lt_Some; eassumption).
  split; [|split].
  - replace (length rds - i)%nat with (S (length rds - S i)) by lia.
    simpl. rewrite list_lookup_fmap.
    rewrite rev_alt. change (rev_append rds []) with (reverse rds).
    rewrite reverse_lookup by lia.
    replace (length rds - S (length rds - S i))%nat with i by lia.
    rewrite Hi. reflexivity.
  - apply project_length.
  - intros j key Hj Hnone. rewrite (project_lookup _ _ _ _ Hj), Hnone. reflexivity.
Qed.

Lemma missing_key_is_empty_field_witness :
  let st' := snd (scrape_and_ingest_csv Examples.aapl_env "u" "out" "AAPL"
                    Examples.start) in
  scrape_and_ingest_csv Examples.aapl_env "u" "out" "AAPL" Examples.start
    = (Return (Some SUCCESS), st') /\
  exists hd rows lines,
    api_table Examples.aapl_env "u" = Some (hd, rows) /\
    fs st' !! os_path_join "out" ("AAPL" +:+ ".csv") = Some (CsvFile lines) /\
    length lines = S (length rows) /\
    forall i row, rows !! i = Some row ->
      exists line,
        lines !! (length rows - i)%nat = Some line /\
        length line = length (dict_keys hd) /\
        forall j key, dict_keys hd !! j = Some key ->
          dict_lookup row key = None -> line !! j = Some (PStr "").
Proof.
  intros st'. split; [reflexivity|].
  apply (missing_key_is_empty_field Examples.aapl_env "u" "out" "AAPL"
           Examples.start st').
  reflexivity.
Defined.

(** On bodies of the expected shape the fetch stage follows the priority
    order of the specification. *)
Lemma fetch_follows_priority_order env url st :
  (forall resp e, requests_get env url = inr resp -> json resp = inl e ->
                  is_ValueError e = true) ->
  (forall resp data, requests_get env url = inr resp -> json resp = inr data ->
                     expected_shape data = true) ->
  code_classify (fst (fetch env url st)) = spec_classify (requests_get env url).
Proof.
  intros Hval Hshape. unfold fetch, spec_classify, bind, try_except, lift, raise, ret.
  destruct (requests_get env url) as [e|resp] eqn:Hreq; [reflexivity|].
  destruct (negb (status_code resp =? 200)); [reflexivity|].
  destruct (json resp) as [e|data] eqn:Hjson.
  { rewrite (Hval _ _ eq_refl Hjson). reflexivity. }
  specialize (Hshape _ _ eq_refl Hjson).
  destruct data as [| | | | | |d]; try discriminate. simpl in *.
  destruct (dict_lookup d "data") as [inner|]; [|reflexivity].
  destruct inner as [| | | | | |i]; try discriminate. simpl.
  destruct (dict_lookup i "tradesTable") as [table|]; [|reflexivity].
  unfold absent_or_empty at 1.
  destruct (truthy table) eqn:Ht; [|reflexivity].
  destruct table as [| | | | | |tb]; simpl in Hshape; try discriminate.
  simpl.
  destruct (dict_lookup tb "headers") as [h|];
    destruct (dict_lookup tb "rows") as [r|]; simpl;
    try destruct (truthy h); try destruct (truthy r); reflexivity.
Qed.

(** C2. A body whose [data] member is [null] has no [tradesTable]
    section, which the priority order classifies as missing fields; the
    code calls [.get] on [None] and ends in the generic handler. *)
Theorem null_data_reported_as_unknown io rd xf rnd lo url child_dir t st :
  let answer := inr (mkResponse 200 (inr Examples.null_body)) in
  let env := mkEnv (fun _ => answer) io rd xf rnd lo in
  spec_classify answer = Some ERROR_MISSING_FIELDS /\
  scrape_and_ingest_csv env url child_dir t st
    = (Return (Some ERROR_UNKNOWN),
       mkState (fs st)
         (console st ++ ["Unexpected error for URL " +:+ url
                         +:+ ": 'NoneType' object has no attribute 'get'"])).
Proof. split; reflexivity. Qed.

(** The body of the outer [try] ends in [return] of a code or in an
    exception. *)
Lemma scrape_body_cases env url child_dir t st :
  (exists rc st1, scrape_body env url child_dir t st = (Ret (Some rc), st1))
  \/ (exists e st1, scrape_body env url child_dir t st = (Exc e, st1)).
Proof.
  destruct (scrape_body env url child_dir t st) as [[u|rv|e] s1] eqn:E.
  - exfalso. exact (scrape_body_no_val _ _ _ _ _ _ _ E).
  - left. assert (exists rc, rv = Some rc) as [rc ->]; [|eauto].
    revert E. unfold scrape_body, fetch, ingest, bind, try_except, lift, raise,
      ret, return_, print, os_path_exists.
    intros E. repeat (case_match; simplify_eq); eauto.
    exfalso. eapply no_ret_write_csv. eassumption.
  - right. eauto.
Qed.

Lemma scrape_returns_code env url child_dir t st :
  exists rc st', scrape_and_ingest_csv env url child_dir t st = (Return (Some rc), st').
Proof.
  unfold scrape_and_ingest_csv, call, try_except.
  destruct (scrape_body_cases env url child_dir t st)
    as [(rc & st1 & ->)|(e & st1 & ->)]; eexists _, _; reflexivity.
Qed.

(** C3. The fetch-and-write of a ticker always returns a member of
    [ErrorCode] and lets no exception through: an exception that leaves
    the body of the outer [try] is answered by [ERROR_UNKNOWN] and one
    console line. *)
Theorem scrape_never_raises env url child_dir t st :
  exists rc st',
    scrape_and_ingest_csv env url child_dir t st = (Return (Some rc), st') /\
    forall e st1,
      scrape_body env url child_dir t st = (Exc e, st1) ->
      rc = ERROR_UNKNOWN /\
      st' = mkState (fs st1)
              (console st1 ++ ["Unexpected error for URL " +:+ url +:+ ": "
                               +:+ exn_msg e]).
Proof.
  unfold scrape_and_ingest_csv, call, try_except.
  destruct (scrape_body_cases env url child_dir t st)
    as [(rc & s1 & E)|(e & s1 & E)]; rewrite E.
  - exists rc, s1. split; [reflexivity|]. intros e' st1 H. discriminate.
  - eexists _, _. split; [reflexivity|].
    intros e' st1 H. injection H as <- <-. split; reflexivity.
Qed.

(** C5. When the fetch has handed on a table and the target directory
    does not exist, the operation returns [ERROR_DIRECTORY], prints the
    diagnostic and leaves the file system as it was. *)
Theorem missing_directory_creates_nothing env url child_dir t st headers rows st1 :
  fetch env url st = (Val (headers, rows), st1) ->
  fs st !! child_dir = None ->
  scrape_and_ingest_csv env url child_dir t st
    = (Return (Some ERROR_DIRECTORY),
       mkState (fs st)
         (console st ++ ["Error: The specified directory '" +:+ child_dir
                         +:+ "' does not exist."])).
Proof.
  intros Hf Hdir.
  destruct (fetch_val _ _ _ _ _ _ Hf) as [-> _].
  unfold scrape_and_ingest_csv, call, try_except, scrape_body.
  rewrite (bind_val _ _ _ _ _ Hf). simpl.
  unfold ingest, bind, os_path_exists. rewrite Hdir.
  rewrite bool_decide_eq_false_2 by (intros [? ?]; discriminate).
  reflexivity.
Qed.

Lemma missing_directory_creates_nothing_witness :
  fetch Examples.aapl_env "u" Examples.start
    = (Val (PDict [("date", PStr "Date"); ("close", PStr "Close/Last");
                   ("volume", PStr "Volume")],
            PList [PDict [("date", PStr "11/02/2026"); ("close", PStr "$270.04");
                          ("volume", PStr "41,064,570")];
                   PDict [("date", PStr "10/30/2026"); ("volume", PStr "86,167,120")];
                   PDict [("date", PStr "10/29/2026"); ("close", PStr "$271.40");
                          ("volume", PStr "51,086,740")]]),
       Examples.start) /\
  fs Examples.start !! "elsewhere" = None /\
  scrape_and_ingest_csv Examples.aapl_env "u" "elsewhere" "AAPL" Examples.start
    = (Return (Some ERROR_DIRECTORY),
       mkState (fs Examples.start)
         (console Examples.start
          ++ ["Error: The specified directory '" +:+ "elsewhere"
              +:+ "' does not exist."])).
Proof.
  split; [reflexivity|]. split; [reflexivity|].
  eapply (missing_directory_creates_nothing Examples.aapl_env "u" "elsewhere" "AAPL"
            Examples.start); reflexivity.
Defined.


(** ** The combiner *)

Lemma read_sheet_ok env child_dir sheets f st df :
  read_ok env (fs st) child_dir f = Some df ->
  read_sheet env child_dir sheets f st
    = (Val (dict_set sheets (sheet_name_of child_dir f) df), st).
Proof.
  unfold read_ok, read_sheet, sheet_name_of, try_except, bind, os_path_exists,
    pd_read_csv.
  cbv zeta. set (csv_file := os_path_join child_dir f).
  destruct (fs st !! csv_file) as [nd|] eqn:E; [|discriminate].
  rewrite bool_decide_eq_true_2 by eauto.
  change (negb true) with false. cbv beta iota. rewrite E.
  destruct (read_csv env csv_file nd) as [e|df']; [discriminate|].
  intros H. simplify_eq. reflexivity.
Qed.

Lemma read_sheet_skip env child_dir sheets f st :
  read_ok env (fs st) child_dir f = None ->
  exists warning,
    read_sheet env child_dir sheets f st
      = (Val sheets, mkState (fs st) (console st ++ [warning])).
Proof.
  unfold read_ok, read_sheet, try_except, bind, os_path_exists, pd_read_csv.
  cbv zeta. set (csv_file := os_path_join child_dir f).
  destruct (fs st !! csv_file) as [nd|] eqn:E.
  - rewrite bool_decide_eq_true_2 by eauto.
    change (negb true) with false. cbv beta iota. rewrite E.
    destruct (read_csv env csv_file nd) as [e|df']; [|discriminate]. intros _.
    unfold lift, raise.
    destruct (is_FileNotFoundError e); [eexists; reflexivity|].
    destruct (is_EmptyDataError e); [eexists; reflexivity|].
    destruct (is_ParserError e); eexists; reflexivity.
  - rewrite bool_decide_eq_false_2 by (intros [? ?]; discriminate).
    intros _. eexists. reflexivity.
Qed.

(** The loop always runs to its end, only reads the file system, and
    prints one line per skipped file. *)
Lemma read_sheets_spec env child_dir csv_files : forall sheets st,
  exists warnings,
    read_sheets env child_dir csv_files sheets st
      = (Val (sheets_of env (fs st) child_dir csv_files sheets),
         mkState (fs st) (console st ++ warnings)) /\
    length warnings = length (skipped env (fs st) child_dir csv_files).
Proof.
  induction csv_files as [|f rest IH]; intros sheets st; simpl.
  - exists []. rewrite app_nil_r. destruct st; auto.
  - destruct (read_ok env (fs st) child_dir f) as [df|] eqn:E.
    + rewrite (bind_val _ _ _ _ _ (read_sheet_ok _ _ sheets _ _ _ E)).
      apply IH.
    + destruct (read_sheet_skip _ _ sheets _ _ E) as [w Hw].
      rewrite (bind_val _ _ _ _ _ Hw).
      destruct (IH sheets (mkState (fs st) (console st ++ [w]))) as (ws & -> & Hlen).
      exists (w :: ws). simpl in *. rewrite <- app_assoc. simpl.
      split; [reflexivity|]. rewrite Hlen. reflexivity.
Qed.

Lemma sheets_of_app env files child_dir pre post sheets :
  sheets_of env files child_dir (pre ++ post) sheets
  = sheets_of env files child_dir post (sheets_of env files child_dir pre sheets).
Proof. revert sheets. induction pre as [|f pre IH]; intros sheets; simpl; auto. Qed.

Lemma dict_set_nonempty {A} (d : list (string * A)) k v : dict_set d k v <> [].
Proof. destruct d as [|[k' v'] d]; simpl; [|destruct (String.eqb k' k)]; discriminate. Qed.

Lemma sheets_of_keeps_nonempty env files child_dir csv_files : forall sheets,
  sheets <> [] -> sheets_of env files child_dir csv_files sheets <> [].
Proof.
  induction csv_files as [|f rest IH]; intros sheets H; simpl; [assumption|].
  apply IH. destruct (read_ok env files child_dir f); [apply dict_set_nonempty|assumption].
Qed.

Lemma sheets_of_nonempty env files child_dir csv_files g sheets :
  g ∈ csv_files -> is_Some (read_ok env files child_dir g) ->
  sheets_of env files child_dir csv_files sheets <> [].
Proof.
  intros Hin [df Hdf]. apply list_elem_of_split in Hin as (pre & post & ->).
  rewrite sheets_of_app. simpl. rewrite Hdf.
  apply sheets_of_keeps_nonempty, dict_set_nonempty.
Qed.

Lemma sheets_of_none env files child_dir csv_files : forall sheets,
  Forall (fun f => read_ok env files child_dir f = None) csv_files ->
  sheets_of env files child_dir csv_files sheets = sheets.
Proof.
  induction csv_files as [|f rest IH]; intros sheets H; simpl; [reflexivity|].
  inversion H as [|? ? Hf Hrest]; subst. rewrite Hf. apply IH. assumption.
Qed.

(** The three ways the combiner ends. *)
Lemma combine_spec env child_dir csv_files output_excel st :
  exists warnings,
    length warnings = length (skipped env (fs st) child_dir csv_files) /\
    combine_csvs_to_excel env child_dir csv_files output_excel st
    = match sheets_of env (fs st) child_dir csv_files [] with
      | [] =>
          (Return (Some ERROR_UNKNOWN),
           mkState (fs st)
             (console st ++ warnings
              ++ ["No valid CSV files were processed. Exiting..."]))
      | sheets =>
          match excel_fault env output_excel with
          | None =>
              (Return (Some SUCCESS),
               mkState (<[output_excel := XlsxFile (to_excel_all sheets)]> (fs st))
                 (console st ++ warnings ++ ["Success!: " +:+ output_excel]))
          | Some (e, leftover) =>
              (Return None,
               mkState (match leftover with
                        | Some nd => <[output_excel := nd]> (fs st)
                        | None => fs st
                        end)
                 (console st ++ warnings ++ [write_diagnostic output_excel e]))
          end
      end.
Proof.
  destruct (read_sheets_spec env child_dir csv_files [] st) as (ws & Hrs & Hlen).
  exists ws. split; [assumption|].
  unfold combine_csvs_to_excel, call, combine_body.
  rewrite (bind_val _ _ _ _ _ Hrs).
  destruct (sheets_of env (fs st) child_dir csv_files []) as [|s ss].
  - simpl. rewrite <- app_assoc. reflexivity.
  - unfold try_except, write_excel, write_diagnostic, bind, set_file, raise, ret,
      print, return_.
    destruct (excel_fault env output_excel) as [[e [nd|]]|]; simpl;
      try destruct (is_PermissionError e); simpl; rewrite <- app_assoc; reflexivity.
Qed.

Lemma read_sheets_skip env child_dir pre f post sheets st :
  read_ok env (fs st) child_dir f = None ->
  fst (read_sheets env child_dir (pre ++ f :: post) sheets st)
  = fst (read_sheets env child_dir (pre ++ post) sheets st).
Proof.
  intros Hf.
  destruct (read_sheets_spec env child_dir (pre ++ f :: post) sheets st)
    as (ws1 & -> & _).
  destruct (read_sheets_spec env child_dir (pre ++ post) sheets st)
    as (ws2 & -> & _).
  simpl. rewrite !sheets_of_app. simpl. rewrite Hf. reflexivity.
Qed.

(** C7. When no file of the list is read, the combiner returns
    [ERROR_UNKNOWN], says so on the console and leaves the file system as
    it was: no workbook is written. *)
Theorem no_sheet_no_workbook env child_dir csv_files output_excel st :
  Forall (fun f => read_ok env (fs st) child_dir f = None) csv_files ->
  exists st',
    combine_csvs_to_excel env child_dir csv_files output_excel st
      = (Return (Some ERROR_UNKNOWN), st') /\
    fs st' = fs st /\
    last (console st') = Some "No valid CSV files were processed. Exiting...".
Proof.
  intros Hall.
  destruct (combine_spec env child_dir csv_files output_excel st) as (ws & _ & ->).
  rewrite (sheets_of_none _ _ _ _ [] Hall).
  eexists. split; [reflexivity|]. split; [reflexivity|].
  simpl. rewrite app_assoc. apply last_snoc.
Qed.

Lemma no_sheet_no_workbook_witness :
  Forall (fun f => read_ok Examples.aapl_env (fs Examples.run_dir) "out" f = None)
    ["notes.txt"; "GONE.csv"] /\
  exists st',
    combine_csvs_to_excel Examples.aapl_env "out" ["notes.txt"; "GONE.csv"]
      "out/combined.xlsx" Examples.run_dir
      = (Return (Some ERROR_UNKNOWN), st') /\
    fs st' = fs Examples.run_dir /\
    last (console st') = Some "No valid CSV files were processed. Exiting...".
Proof.
  assert (H : Forall (fun f => read_ok Examples.aapl_env (fs Examples.run_dir) "out" f
                               = None) ["notes.txt"; "GONE.csv"])
    by (repeat constructor).
  split; [exact H|].
  exact (no_sheet_no_workbook Examples.aapl_env "out" ["notes.txt"; "GONE.csv"]
           "out/combined.xlsx" Examples.run_dir H).
Defined.

(** C9. A file named [AAPL.csv.csv] gets the sheet name [AAPL]: every
    [.csv] is removed, not the extension at the end only. Read together
    with [AAPL.csv], it takes that file's sheet: the workbook has one
    sheet, with the content of the second file. *)
Theorem sheet_name_drops_every_dot_csv :
  strip_csv_suffix "AAPL.csv.csv" = "AAPL.csv" /\
  sheet_name_of "out" "AAPL.csv.csv" = "AAPL" /\
  exists st',
    combine_csvs_to_excel Examples.aapl_env "out" ["AAPL.csv"; "AAPL.csv.csv"]
      "out/combined.xlsx" Examples.twin_dir
      = (Return (Some SUCCESS), st') /\
    fs st' !! "out/combined.xlsx"
      = Some (XlsxFile
                [mkSheet "AAPL"
                   (mkDataFrame [PStr "Date"; PStr "Close/Last"]
                      [[PStr "10/29/2026"; PStr "$9"]])
                   false]).
Proof.
  split; [reflexivity|]. split; [reflexivity|].
  eexists. split; reflexivity.
Qed.

(** C10. When sheets were collected and the final write raises, the
    combiner prints the diagnostic of the matching handler and returns
    [None]; on every other path it returns a member of [ErrorCode], as the
    fetch-and-write operation always does. *)
Theorem write_failure_returns_None env child_dir csv_files output_excel st e leftover :
  sheets_of env (fs st) child_dir csv_files [] <> [] ->
  excel_fault env output_excel = Some (e, leftover) ->
  (exists st',
     combine_csvs_to_excel env child_dir csv_files output_excel st
       = (Return None, st') /\
     last (console st') = Some (write_diagnostic output_excel e)) /\
  (forall files out st0,
     sheets_of env (fs st0) child_dir files [] = [] \/ excel_fault env out = None ->
     exists rc,
       fst (combine_csvs_to_excel env child_dir files out st0) = Return (Some rc)) /\
  (forall url t st0, exists rc,
     fst (scrape_and_ingest_csv env url child_dir t st0) = Return (Some rc)).
Proof.
  intros Hne Hx. split; [|split].
  - destruct (combine_spec env child_dir csv_files output_excel st) as (ws & _ & ->).
    rewrite Hx.
    destruct (sheets_of env (fs st) child_dir csv_files []) as [|s ss];
      [congruence|].
    eexists. split; [reflexivity|]. simpl. rewrite app_assoc. apply last_snoc.
  - intros files out st0 H.
    destruct (combine_spec env child_dir files out st0) as (ws & _ & ->).
    destruct (sheets_of env (fs st0) child_dir files []) as [|s ss];
      [eexists; reflexivity|].
    destruct H as [H|H]; [discriminate|]. rewrite H. eexists; reflexivity.
  - intros url t st0.
    destruct (scrape_returns_code env url child_dir t st0) as (rc & st' & ->).
    eexists; reflexivity.
Qed.

Lemma write_failure_returns_None_witness :
  sheets_of Examples.locked_env (fs Examples.run_dir) "out" ["AAPL.csv"] [] <> [] /\
  excel_fault Examples.locked_env "out/combined.xlsx"
    = Some (PyExn PermissionError "[Errno 13] Permission denied", None) /\
  exists st',
    combine_csvs_to_excel Examples.locked_env "out" ["AAPL.csv"] "out/combined.xlsx"
      Examples.run_dir
      = (Return None, st') /\
    last (console st')
    = Some (write_diagnostic "out/combined.xlsx"
              (PyExn PermissionError "[Errno 13] Permission denied")).
Proof.
  assert (H : sheets_of Examples.locked_env (fs Examples.run_dir) "out" ["AAPL.csv"] []
              <> []) by discriminate.
  split; [exact H|]. split; [reflexivity|].
  exact (proj1 (write_failure_returns_None Examples.locked_env "out" ["AAPL.csv"]
                  "out/combined.xlsx" Examples.run_dir _ _ H eq_refl)).
Defined.

(** ** The ticker loop *)

Lemma quiet_bind {A B} (m : M A) (k : A -> M B) :
  quiet m -> (forall a, quiet (k a)) -> quiet (bind m k).
Proof.
  intros Hm Hk st r st' H.
  apply bind_inv in H as [(a & st1 & H1 & H)|[(rv & H & _)|(e & H & _)]].
  - rewrite (Hk _ _ _ _ H). exact (Hm _ _ _ H1).
  - exact (Hm _ _ _ H).
  - exact (Hm _ _ _ H).
Qed.

Lemma quiet_lift {A} (r : pyexn + A) : quiet (lift r).
Proof. intros st res st'. destruct r; intros H; injection H as _ <-; reflexivity. Qed.

Lemma quiet_io_step env path k : quiet (io_step env path k).
Proof.
  intros st r st' H.
  destruct (io_step_cases env path k st) as [E|[e E]]; rewrite E in H;
    injection H as _ <-; reflexivity.
Qed.

Lemma quiet_io_flush env path k : quiet (io_flush env path k).
Proof.
  intros st r st' H.
  destruct (io_flush_cases env path k st) as [E|[e E]]; rewrite E in H;
    injection H as _ <-; reflexivity.
Qed.

Lemma quiet_writerow env path k rec : quiet (writerow env path k rec).
Proof.
  apply quiet_bind; [apply quiet_io_flush|].
  intros _ st r st' H. injection H as _ <-. reflexivity.
Qed.

Lemma quiet_write_rows env path headers rows : forall k,
  quiet (write_rows env path headers k rows).
Proof.
  induction rows as [|row rows IH]; intros k; simpl.
  - intros st r st' H. injection H as _ <-. reflexivity.
  - apply quiet_bind; [apply quiet_lift|]. intros vs.
    apply quiet_bind; [apply quiet_writerow|]. intros _. apply IH.
Qed.

Lemma quiet_write_csv env path headers rows :
  quiet (write_csv env path headers rows).
Proof.
  unfold write_csv.
  apply quiet_bind.
  { apply quiet_bind; [apply quiet_io_step|].
    intros _ st r st' H. injection H as _ <-. reflexivity. }
  intros _. apply quiet_bind; [apply quiet_lift|]. intros hs.
  apply quiet_bind; [apply quiet_writerow|]. intros _.
  apply quiet_bind; [apply quiet_lift|]. intros rrows.
  apply quiet_bind; [apply quiet_write_rows|]. intros _.
  apply quiet_io_flush.
Qed.

(** The fetch stage prints one line when it returns and none otherwise. *)
Lemma fetch_prints env url st r st' :
  fetch env url st = (r, st') ->
  exists diag, console st' = console st ++ diag /\
    match r with
    | Ret _ => length diag = 1%nat
    | _ => diag = []
    end.
Proof.
  unfold fetch, bind, try_except, lift, raise, ret, return_, print.
  intros H.
  repeat (case_match; simplify_eq; try discriminate); simpl;
    first [ exists []; rewrite app_nil_r; split; reflexivity
          | eexists [_]; split; reflexivity ].
Qed.

(** So does the write stage. *)
Lemma ingest_prints env url child_dir t h r st res st' :
  ingest env url child_dir t h r st = (res, st') ->
  exists diag, console st' = console st ++ diag /\
    match res with
    | Ret _ => (length diag <= 1)%nat
    | _ => diag = []
    end.
Proof.
  unfold ingest, bind at 1, os_path_exists.
  destruct (negb (bool_decide (is_Some (fs st !! child_dir)))).
  - unfold bind, print, return_. intros H. simplify_eq.
    eexists [_]. simpl. split; [reflexivity|lia].
  - unfold try_except.
    destruct (bind (write_csv env _ h r) (fun _ => return_ SUCCESS) st)
      as [[u|rv|e] s1] eqn:E.
    + intros H. simplify_eq.
      apply bind_inv in E as [(a & s2 & _ & E)|[(rv & _ & ?)|(e & _ & ?)]];
        discriminate.
    + intros H. simplify_eq. exists []. rewrite app_nil_r. simpl. split; [|lia].
      apply bind_inv in E as [(a & s2 & Hw & E)|[(rv' & Hw & _)|(e & _ & ?)]];
        [| |discriminate].
      * injection E as _ <-. exact (quiet_write_csv _ _ _ _ _ _ _ Hw).
      * exact (quiet_write_csv _ _ _ _ _ _ _ Hw).
    + assert (Hq : console s1 = console st).
      { apply bind_inv in E as [(a & s2 & Hw & E)|[(rv' & _ & ?)|(e' & Hw & _)]];
          [discriminate|discriminate|].
        exact (quiet_write_csv _ _ _ _ _ _ _ Hw). }
      destruct (is_IOError e).
      * unfold bind, print, return_. intros H. simplify_eq. simpl.
        eexists [_]. rewrite Hq. simpl. split; [reflexivity|lia].
      * intros H. simplify_eq. exists []. rewrite app_nil_r. auto.
Qed.

(** The fetch-and-write of a ticker prints at most one line. *)
Lemma scrape_prints env url child_dir t st c st' :
  scrape_and_ingest_csv env url child_dir t st = (c, st') ->
  exists diag, console st' = console st ++ diag /\ (length diag <= 1)%nat.
Proof.
  unfold scrape_and_ingest_csv, call, try_except.
  destruct (scrape_body env url child_dir t st) as [[u|rv|e] s1] eqn:E.
  - exfalso. exact (scrape_body_no_val _ _ _ _ _ _ _ E).
  - intros H. simplify_eq. unfold scrape_body in E.
    apply bind_inv in E as [(hr & s2 & Hf & Hi)|[(rv' & Hf & ?)|(e & _ & ?)]];
      [| |discriminate].
    + apply fetch_prints in Hf as (d1 & Hd1 & ->). rewrite app_nil_r in Hd1.
      apply ingest_prints in Hi as (d2 & Hd2 & Hlen). rewrite Hd1 in Hd2. eauto.
    + apply fetch_prints in Hf as (d1 & Hd1 & Hlen). exists d1. split; [assumption|lia].
  - unfold bind, print, return_. intros H. simplify_eq. simpl.
    assert (Hq : console s1 = console st).
    { unfold scrape_body in E.
      apply bind_inv in E as [(hr & s2 & Hf & Hi)|[(rv' & _ & ?)|(e' & Hf & _)]];
        [|discriminate|].
      - apply fetch_prints in Hf as (d1 & Hd1 & ->). rewrite app_nil_r in Hd1.
        apply ingest_prints in Hi as (d2 & Hd2 & ->). rewrite app_nil_r in Hd2.
        congruence.
      - apply fetch_prints in Hf as (d1 & Hd1 & ->). rewrite app_nil_r in Hd1.
        assumption. }
    eexists [_]. rewrite Hq. simpl. split; [reflexivity|lia].
Qed.

Lemma process_ticker_spec env five_weeks_ago current_date child_dir i t st :
  exists rc st1 diag,
    scrape_and_ingest_csv env (url_for t five_weeks_ago current_date (randint env i))
      child_dir t st = (Return (Some rc), st1) /\
    console st1 = console st ++ diag /\ (length diag <= 1)%nat /\
    process_ticker env five_weeks_ago current_date child_dir i t st
      = (Val tt,
         mkState (fs st1)
           (console st1 ++ [ljust4 t +:+ " - ErrorCode." +:+ ErrorCode_name rc])).
Proof.
  destruct (scrape_returns_code env
              (url_for t five_weeks_ago current_date (randint env i)) child_dir t st)
    as (rc & st1 & Hs).
  destruct (scrape_prints _ _ _ _ _ _ _ Hs) as (diag & Hd & Hlen).
  exists rc, st1, diag. split; [assumption|]. split; [assumption|]. split; [assumption|].
  unfold process_ticker, bind, invoke. cbv zeta. rewrite Hs. reflexivity.
Qed.

Lemma tickers_loop_spec env five_weeks_ago current_date child_dir ts : forall i st,
  exists st' chunks,
    tickers_loop env five_weeks_ago current_date child_dir i ts st = (Val tt, st') /\
    console st' = console st ++ concat chunks /\
    Forall2 (fun t chunk =>
               exists diag rc,
                 chunk = diag ++ [ljust4 t +:+ " - ErrorCode." +:+ ErrorCode_name rc] /\
                 (length diag <= 1)%nat)
      ts chunks.
Proof.
  induction ts as [|t ts IH]; intros i st; simpl.
  - exists st, []. simpl. rewrite app_nil_r. auto.
  - destruct (process_ticker_spec env five_weeks_ago current_date child_dir i t st)
      as (rc & st1 & diag & _ & Hd & Hlen & Hp).
    rewrite (bind_val _ _ _ _ _ Hp).
    destruct (IH (S i) (mkState (fs st1)
                (console st1 ++ [ljust4 t +:+ " - ErrorCode." +:+ ErrorCode_name rc])))
      as (st' & chunks & -> & Hc & Hall).
    exists st', ((diag ++ [ljust4 t +:+ " - ErrorCode." +:+ ErrorCode_name rc]) :: chunks).
    split; [reflexivity|]. split.
    + rewrite Hc. simpl. rewrite Hd, <- !app_assoc. reflexivity.
    + constructor; [eauto|assumption].
Qed.

(** C8, as the code has it. In every round of the loop the orchestrator
    prints, after the at most one line of the fetch-and-write, exactly one
    line: the ticker left-justified in a field of width 4, [ - ], and
    [ErrorCode.] followed by the name of the returned code. The console of
    the whole loop is the sequence of these rounds, one per ticker. *)
Theorem ticker_report_line env five_weeks_ago current_date child_dir :
  (forall i t st, exists rc st1 diag,
      scrape_and_ingest_csv env (url_for t five_weeks_ago current_date (randint env i))
        child_dir t st = (Return (Some rc), st1) /\
      console st1 = console st ++ diag /\ (length diag <= 1)%nat /\
      process_ticker env five_weeks_ago current_date child_dir i t st
        = (Val tt,
           mkState (fs st1)
             (console st1 ++ [ljust4 t +:+ " - ErrorCode." +:+ ErrorCode_name rc]))) /\
  (forall tickers st, exists st' chunks,
      main_tickers env five_weeks_ago current_date child_dir tickers st = (Val tt, st') /\
      console st' = console st ++ concat chunks /\
      Forall2 (fun t chunk =>
                 exists diag rc,
                   chunk = diag ++ [ljust4 t +:+ " - ErrorCode." +:+ ErrorCode_name rc] /\
                   (length diag <= 1)%nat)
        (map upper tickers) chunks).
Proof.
  split.
  - intros i t st. apply process_ticker_spec.
  - intros tickers st. apply tickers_loop_spec.
Qed.

(** C8 with the bare code name does not hold: the line of a successful
    [AAPL] is [AAPL - ErrorCode.SUCCESS], the line of a [ZZZZINVALID]
    answered with a status other than 200 is
    [ZZZZINVALID - ErrorCode.ERROR_HTTP_REQUEST], and the lines with the
    bare names are not printed; a ticker of fewer than four characters is
    padded. *)
Lemma report_line_is_not_bare_name :
  let ok := console (snd (main_tickers Examples.aapl_env "2026-09-29" "2026-11-03"
                            "out" ["aapl"] Examples.start)) in
  let ko := console (snd (main_tickers Examples.bad_status_env "2026-09-29"
                            "2026-11-03" "out" ["zzzzinvalid"] Examples.start)) in
  let short := console (snd (main_tickers Examples.aapl_env "2026-09-29" "2026-11-03"
                               "out" ["f"] Examples.start)) in
  ok = ["AAPL - ErrorCode.SUCCESS"] /\
  ~ In (bare_report_line "AAPL" SUCCESS) ok /\
  last ko = Some "ZZZZINVALID - ErrorCode.ERROR_HTTP_REQUEST" /\
  ~ In (bare_report_line "ZZZZINVALID" ERROR_HTTP_REQUEST) ko /\
  short = ["F    - ErrorCode.SUCCESS"].
Proof.
  vm_compute. repeat split; intros H;
    repeat (destruct H as [H|H]; [discriminate|]); exact H.
Qed.

(** ** Sheet names of the files the writer produces *)

Lemma strip_csv_suffix_cons c s :
  String.length s <> 3%nat ->
  strip_csv_suffix (String c s) = String c (strip_csv_suffix s).
Proof.
  intros Hlen. ascii_cases c; try reflexivity.
  destruct s as [|c2 s2]; [reflexivity|]. ascii_cases c2; try reflexivity.
  destruct s2 as [|c3 s3]; [reflexivity|]. ascii_cases c3; try reflexivity.
  destruct s3 as [|c4 s4]; [reflexivity|]. ascii_cases c4; try reflexivity.
  destruct s4; [|reflexivity]. simpl in Hlen. congruence.
Qed.

Lemma length_append_ext t : String.length (t +:+ ".csv") = (String.length t + 4)%nat.
Proof. induction t as [|c t IH]; simpl; [reflexivity|]. rewrite IH. reflexivity. Qed.

Lemma strip_csv_suffix_ext t : strip_csv_suffix (t +:+ ".csv") = t.
Proof.
  induction t as [|c t IH]; [reflexivity|].
  change (String c t +:+ ".csv") with (String c (t +:+ ".csv")).
  rewrite strip_csv_suffix_cons, IH; [reflexivity|].
  rewrite length_append_ext. lia.
Qed.

Lemma replace_dot_csv_cons c s :
  String.prefix ".csv" (String c s) = false ->
  replace_dot_csv (String c s) = String c (replace_dot_csv s).
Proof.
  intros H. ascii_cases c; try reflexivity.
  destruct s as [|c2 s2]; [reflexivity|]. ascii_cases c2; try reflexivity.
  destruct s2 as [|c3 s3]; [reflexivity|]. ascii_cases c3; try reflexivity.
  destruct s3 as [|c4 s4]; [reflexivity|]. ascii_cases c4; try reflexivity.
  destruct s4; vm_compute in H; discriminate.
Qed.

Lemma prefix_dot_csv_true s :
  String.prefix ".csv" s = true ->
  exists r, s = String "." (String "c" (String "s" (String "v" r))).
Proof.
  intros H.
  destruct s as [|c1 s1]; [discriminate|]. ascii_cases c1; try discriminate.
  destruct s1 as [|c2 s2]; [discriminate|]. ascii_cases c2; try discriminate.
  destruct s2 as [|c3 s3]; [discriminate|]. ascii_cases c3; try discriminate.
  destruct s3 as [|c4 s4]; [discriminate|]. ascii_cases c4; try discriminate.
  exists s4. reflexivity.
Qed.

Lemma prefix_dot_csv_ext c s :
  String.prefix ".csv" (String c s) = false ->
  String.prefix ".csv" (String c (s +:+ ".csv")) = false.
Proof.
  intros H. ascii_cases c; try reflexivity.
  destruct s as [|c2 s2]; [reflexivity|]. ascii_cases c2; try reflexivity.
  destruct s2 as [|c3 s3]; [reflexivity|]. ascii_cases c3; try reflexivity.
  destruct s3 as [|c4 s4]; [reflexivity|]. ascii_cases c4; try reflexivity.
  destruct s4; vm_compute in H; discriminate.
Qed.

(** Appending the extension to a name adds nothing to what [replace]
    leaves of it. *)
Lemma replace_dot_csv_ext : forall n t,
  (String.length t <= n)%nat ->
  replace_dot_csv (t +:+ ".csv") = replace_dot_csv t.
Proof.
  induction n as [|n IH]; intros t Hlen.
  - destruct t; [reflexivity|simpl in Hlen; lia].
  - destruct t as [|c t']; [reflexivity|].
    destruct (String.prefix ".csv" (String c t')) eqn:Hp.
    + apply prefix_dot_csv_true in Hp as [r Hr]. rewrite Hr in Hlen |- *.
      change (replace_dot_csv (r +:+ ".csv") = replace_dot_csv r).
      apply IH. simpl in Hlen. lia.
    + change (String c t' +:+ ".csv") with (String c (t' +:+ ".csv")).
      rewrite (replace_dot_csv_cons _ _ Hp).
      rewrite (replace_dot_csv_cons _ _ (prefix_dot_csv_ext _ _ Hp)).
      f_equal. apply IH. simpl in Hlen. lia.
Qed.

Lemma basename_from_no_sep p : forall cur,
  has_sep p = false -> basename_from cur p = cur.
Proof.
  induction p as [|c p IH]; intros cur H; simpl in *; [reflexivity|].
  apply orb_false_iff in H as [Hc Hp]. rewrite Hc. apply IH. assumption.
Qed.

Lemma basename_from_app a f : forall cur,
  has_sep f = false -> basename_from cur (a +:+ String "/" f) = f.
Proof.
  induction a as [|c a IH]; intros cur H; simpl.
  - apply basename_from_no_sep. assumption.
  - destruct (Ascii.eqb c "/"); apply IH; assumption.
Qed.

Lemma ends_with_sep_split a :
  ends_with_sep a = true -> exists a0, a = a0 +:+ "/".
Proof.
  induction a as [|c a IH]; [discriminate|]. simpl.
  destruct a as [|c' a'].
  - intros H. apply Ascii.eqb_eq in H as ->. exists "". reflexivity.
  - intros H. destruct (IH H) as [a0 Ha0]. exists (String c a0).
    rewrite Ha0. reflexivity.
Qed.

Lemma append_assoc_sep a0 f : (a0 +:+ "/") +:+ f = a0 +:+ String "/" f.
Proof.
  induction a0 as [|c a0 IH]; [reflexivity|].
  change (String c ((a0 +:+ "/") +:+ f) = String c (a0 +:+ String "/" f)).
  rewrite IH. reflexivity.
Qed.

Lemma basename_join child_dir f :
  has_sep f = false -> os_path_basename (os_path_join child_dir f) = f.
Proof.
  intros H. unfold os_path_basename, os_path_join.
  assert (Hp : String.prefix "/" f = false).
  { destruct f as [|c f']; [reflexivity|]. simpl in H.
    apply orb_false_iff in H as [Hc _].
    ascii_cases c; first [discriminate Hc | reflexivity]. }
  rewrite Hp.
  destruct (String.eqb child_dir "") eqn:He.
  - apply String.eqb_eq in He as ->. simpl. apply basename_from_no_sep. assumption.
  - simpl. destruct (ends_with_sep child_dir) eqn:Hs.
    + apply ends_with_sep_split in Hs as [a0 ->].
      rewrite append_assoc_sep. apply basename_from_app. assumption.
    + change ("/" +:+ f) with (String "/" f).
      apply basename_from_app. assumption.
Qed.

Lemma has_sep_ext t : has_sep (t +:+ ".csv") = has_sep t.
Proof. induction t as [|c t IH]; simpl; [reflexivity|]. rewrite IH. reflexivity. Qed.

(** For a file named [t.csv], where [t] has no [/] and no [.csv] in it
    (the names the writer produces for upper-case tickers), the sheet name
    is [t]: the name with the extension stripped from its end. *)
Lemma sheet_name_of_plain_csv child_dir t :
  has_sep t = false -> replace_dot_csv t = t ->
  sheet_name_of child_dir (t +:+ ".csv") = t /\
  sheet_name_of child_dir (t +:+ ".csv") = strip_csv_suffix (t +:+ ".csv").
Proof.
  intros Hsep Hcsv.
  assert (H : sheet_name_of child_dir (t +:+ ".csv") = t).
  { unfold sheet_name_of. rewrite basename_join by (rewrite has_sep_ext; assumption).
    rewrite (replace_dot_csv_ext (String.length t)) by lia. assumption. }
  split; [assumption|]. rewrite strip_csv_suffix_ext. assumption.
Qed.

(** * Further properties *)

(** ** How the fetch-and-write ends, code by code *)

(** The fetch stage only reads. *)
Lemma fetch_fs env url st r st' :
  fetch env url st = (r, st') -> fs st' = fs st.
Proof.
  unfold fetch, bind, try_except, lift, raise, ret, return_, print.
  intros H. repeat (case_match; simplify_eq; try discriminate); reflexivity.
Qed.

(** The whole operation in terms of its two stages. *)
Lemma scrape_by_stages env url child_dir t st :
  scrape_and_ingest_csv env url child_dir t st =
  match fetch env url st with
  | (Val hr, s1) =>
      if bool_decide (is_Some (fs s1 !! child_dir)) then
        match write_csv env (os_path_join child_dir (t +:+ ".csv"))
                (fst hr) (snd hr) s1 with
        | (Exc e, s2) =>
            if is_IOError e then
              (Return (Some ERROR_IO),
               mkState (fs s2)
                 (console s2 ++ ["Error: Failed to write to file for URL " +:+ url
                                 +:+ ". " +:+ exn_msg e]))
            else
              (Return (Some ERROR_UNKNOWN),
               mkState (fs s2)
                 (console s2 ++ ["Unexpected error for URL " +:+ url +:+ ": "
                                 +:+ exn_msg e]))
        | (_, s2) => (Return (Some SUCCESS), s2)
        end
      else
        (Return (Some ERROR_DIRECTORY),
         mkState (fs s1)
           (console s1 ++ ["Error: The specified directory '" +:+ child_dir
                           +:+ "' does not exist."]))
  | (Ret rv, s1) => (Return rv, s1)
  | (Exc e, s1) =>
      (Return (Some ERROR_UNKNOWN),
       mkState (fs s1)
         (console s1 ++ ["Unexpected error for URL " +:+ url +:+ ": "
                         +:+ exn_msg e]))
  end.
Proof.
  unfold scrape_and_ingest_csv, call, try_except at 1, scrape_body, bind at 1.
  destruct (fetch env url st) as [[hr|rv|e] s1]; [|reflexivity..].
  unfold ingest, bind at 1, os_path_exists.
  destruct (bool_decide (is_Some (fs s1 !! child_dir))); [|reflexivity].
  change (negb true) with false. cbv beta iota.
  unfold try_except, bind at 1.
  destruct (write_csv env _ hr.1 hr.2 s1) as [[u|rv|e] s2] eqn:E.
  - reflexivity.
  - exfalso. exact (no_ret_write_csv _ _ _ _ _ _ _ E).
  - destruct (is_IOError e); reflexivity.
Qed.

(** What the fetch stage returns with. *)
Lemma fetch_ret_cases env url st rv st' :
  fetch env url st = (Ret rv, st') ->
  (rv = Some ERROR_HTTP_REQUEST /\
   ((exists e, requests_get env url = inl e) \/
    (exists resp, requests_get env url = inr resp /\ status_code resp <> 200)))
  \/ (rv = Some ERROR_JSON_PARSING /\
      exists resp e, requests_get env url = inr resp /\ status_code resp = 200 /\
                     json resp = inl e /\ is_ValueError e = true)
  \/ (rv = Some ERROR_MISSING_FIELDS /\
      exists resp data, requests_get env url = inr resp /\ status_code resp = 200 /\
                        json resp = inr data).
Proof.
  unfold fetch, bind, try_except, lift, raise, ret, return_, print.
  intros H.
  repeat (case_match; simplify_eq; try discriminate);
    repeat match goal with
           | Hn : negb _ = true |- _ => apply negb_true_iff in Hn
           | Hn : negb _ = false |- _ => apply negb_false_iff in Hn
           | Hz : (_ =? _) = true |- _ => apply Z.eqb_eq in Hz
           | Hz : (_ =? _) = false |- _ => apply Z.eqb_neq in Hz
           end;
    eauto 12.
Qed.

(** X1. The operation returns [ERROR_HTTP_REQUEST] exactly when
    [requests.get] raises (whatever it raises) or the status is not 200,
    whatever the body is. *)
Theorem http_error_iff env url child_dir t st :
  fst (scrape_and_ingest_csv env url child_dir t st)
    = Return (Some ERROR_HTTP_REQUEST)
  <-> (exists e, requests_get env url = inl e)
      \/ (exists resp, requests_get env url = inr resp /\ status_code resp <> 200).
Proof.
  rewrite scrape_by_stages. split.
  - destruct (fetch env url st) as [[hr|rv|e] s1] eqn:Hf.
    + destruct (bool_decide _); [|discriminate].
      destruct (write_csv _ _ _ _ s1) as [[u|rv|e] s2]; try discriminate.
      destruct (is_IOError e); discriminate.
    + simpl. intros H. injection H as ->.
      destruct (fetch_ret_cases _ _ _ _ _ Hf) as [[_ H]|[[? _]|[? _]]];
        [exact H|discriminate..].
    + discriminate.
  - unfold fetch, bind, try_except, lift, raise, ret, return_, print.
    intros [[e He]|(resp & Hr & Hs)].
    + rewrite He. reflexivity.
    + rewrite Hr. apply Z.eqb_neq in Hs. rewrite Hs. reflexivity.
Qed.

(** X2. The operation returns [ERROR_JSON_PARSING] exactly when the
    status is 200 and [response.json()] raises a [ValueError] (or one of
    its subclasses). *)
Theorem json_error_iff env url child_dir t st :
  fst (scrape_and_ingest_csv env url child_dir t st)
    = Return (Some ERROR_JSON_PARSING)
  <-> exists resp e, requests_get env url = inr resp /\ status_code resp = 200 /\
                     json resp = inl e /\ is_ValueError e = true.
Proof.
  rewrite scrape_by_stages. split.
  - destruct (fetch env url st) as [[hr|rv|e] s1] eqn:Hf.
    + destruct (bool_decide _); [|discriminate].
      destruct (write_csv _ _ _ _ s1) as [[u|rv|e] s2]; try discriminate.
      destruct (is_IOError e); discriminate.
    + simpl. intros H. injection H as ->.
      destruct (fetch_ret_cases _ _ _ _ _ Hf) as [[? _]|[[_ H]|[? _]]];
        [discriminate|exact H|discriminate].
    + discriminate.
  - unfold fetch, bind, try_except, lift, raise, ret, return_, print.
    intros (resp & e & Hr & Hs & Hj & Hv).
    rewrite Hr. apply Z.eqb_eq in Hs. rewrite Hs, Hj, Hv. reflexivity.
Qed.

(** X3. An exception of [response.json()] that is not a [ValueError] is
    not a parse error for the code: it ends in the generic handler. *)
Theorem other_json_exception_is_unknown env url child_dir t st resp e :
  requests_get env url = inr resp -> status_code resp = 200 ->
  json resp = inl e -> is_ValueError e = false ->
  scrape_and_ingest_csv env url child_dir t st
    = (Return (Some ERROR_UNKNOWN),
       mkState (fs st)
         (console st ++ ["Unexpected error for URL " +:+ url +:+ ": "
                         +:+ exn_msg e])).
Proof.
  intros Hr Hs Hj Hv. rewrite scrape_by_stages.
  unfold fetch, bind, try_except, lift, raise, ret, return_, print.
  apply Z.eqb_eq in Hs. rewrite Hr, Hs, Hj, Hv. reflexivity.
Qed.

(** X4. The operation returns [ERROR_DIRECTORY] exactly when the fetch
    stage has handed on a table and [os.path.exists(child_dir)] is false:
    the directory is looked at only after the request. *)
Theorem directory_error_iff env url child_dir t st :
  fst (scrape_and_ingest_csv env url child_dir t st)
    = Return (Some ERROR_DIRECTORY)
  <-> (exists hr, fst (fetch env url st) = Val hr) /\ fs st !! child_dir = None.
Proof.
  rewrite scrape_by_stages.
  destruct (fetch env url st) as [[hr|rv|e] s1] eqn:Hf.
  - assert (Hs : fs s1 = fs st) by exact (fetch_fs _ _ _ _ _ Hf). rewrite Hs.
    case_bool_decide as Hd.
    + split.
      * destruct (write_csv _ _ _ _ s1) as [[u|rv|e] s2]; try discriminate.
        destruct (is_IOError e); discriminate.
      * intros [_ Hn]. rewrite Hn in Hd. destruct Hd; discriminate.
    + split; [|reflexivity]. intros _. split; [eauto|].
      destruct (fs st !! child_dir) eqn:E; [|reflexivity].
      exfalso. apply Hd. eauto.
  - split.
    + simpl. intros H. injection H as ->.
      destruct (fetch_ret_cases _ _ _ _ _ Hf) as [[? _]|[[? _]|[? _]]]; discriminate.
    + intros [[hr Hhr] _]. discriminate.
  - split; [discriminate|]. intros [[hr Hhr] _]. discriminate.
Qed.

Lemma other_json_exception_is_unknown_witness :
  let e := PyExn OtherException "connection reset while reading" in
  let env := Examples.quiet_env (inr (mkResponse 200 (inl e))) in
  requests_get env "u" = inr (mkResponse 200 (inl e)) /\
  status_code (mkResponse 200 (inl e)) = 200 /\
  json (mkResponse 200 (inl e)) = inl e /\
  is_ValueError e = false /\
  scrape_and_ingest_csv env "u" "out" "AAPL" Examples.start
    = (Return (Some ERROR_UNKNOWN),
       mkState (fs Examples.start)
         (console Examples.start ++ ["Unexpected error for URL " +:+ "u" +:+ ": "
                                     +:+ exn_msg e])).
Proof.
  intros e env. repeat (split; [reflexivity|]).
  apply (other_json_exception_is_unknown env "u" "out" "AAPL" Examples.start
           (mkResponse 200 (inl e)) e); reflexivity.
Defined.

(** ** What the fetch-and-write leaves alone *)

(** X5. With the codes [ERROR_HTTP_REQUEST], [ERROR_JSON_PARSING],
    [ERROR_MISSING_FIELDS] and [ERROR_DIRECTORY] nothing was written: the
    file system is as before, in particular a file of an earlier run of
    the ticker is neither removed nor truncated. *)
Theorem failed_fetch_writes_nothing env url child_dir t st rc st' :
  scrape_and_ingest_csv env url child_dir t st = (Return (Some rc), st') ->
  In rc [ERROR_HTTP_REQUEST; ERROR_JSON_PARSING; ERROR_MISSING_FIELDS;
         ERROR_DIRECTORY] ->
  fs st' = fs st.
Proof.
  rewrite scrape_by_stages. intros H Hrc.
  destruct (fetch env url st) as [[hr|rv|e] s1] eqn:Hf;
    pose proof (fetch_fs _ _ _ _ _ Hf) as Hfs.
  - destruct (bool_decide _).
    + destruct (write_csv _ _ _ _ s1) as [[u|rv|e] s2];
        try destruct (is_IOError e); simplify_eq;
        simpl in Hrc; intuition discriminate.
    + simplify_eq. exact Hfs.
  - simplify_eq. exact Hfs.
  - simplify_eq. simpl in Hrc. intuition discriminate.
Qed.

Lemma failed_fetch_writes_nothing_witness :
  let st' := snd (scrape_and_ingest_csv Examples.bad_status_env "u" "out" "AAPL"
                    Examples.run_dir) in
  scrape_and_ingest_csv Examples.bad_status_env "u" "out" "AAPL" Examples.run_dir
    = (Return (Some ERROR_HTTP_REQUEST), st') /\
  In ERROR_HTTP_REQUEST [ERROR_HTTP_REQUEST; ERROR_JSON_PARSING;
                         ERROR_MISSING_FIELDS; ERROR_DIRECTORY] /\
  fs st' = fs Examples.run_dir.
Proof.
  intros st'. split; [reflexivity|]. split; [left; reflexivity|].
  apply (failed_fetch_writes_nothing Examples.bad_status_env "u" "out" "AAPL"
           Examples.run_dir ERROR_HTTP_REQUEST st'); [reflexivity|left; reflexivity].
Defined.

Lemma only_touches_bind {A B} path (m : M A) (k : A -> M B) :
  only_touches path m -> (forall a, only_touches path (k a)) ->
  only_touches path (bind m k).
Proof.
  intros Hm Hk st r st' p H Hp.
  apply bind_inv in H as [(a & st1 & H1 & H)|[(rv & H & _)|(e & H & _)]].
  - rewrite (Hk _ _ _ _ _ H Hp). exact (Hm _ _ _ _ H1 Hp).
  - exact (Hm _ _ _ _ H Hp).
  - exact (Hm _ _ _ _ H Hp).
Qed.

Lemma only_touches_lift {A} path (r : pyexn + A) : only_touches path (lift r).
Proof. intros st res st' p H _. destruct r; injection H as _ <-; reflexivity. Qed.

Lemma only_touches_io_step env path k : only_touches path (io_step env path k).
Proof.
  intros st r st' p H _.
  destruct (io_step_cases env path k st) as [E|[e E]]; rewrite E in H;
    injection H as _ <-; reflexivity.
Qed.

Lemma only_touches_io_flush env path k : only_touches path (io_flush env path k).
Proof.
  intros st r st' p H Hp.
  destruct (io_flush_cases env path k st) as [E|[e E]]; rewrite E in H;
    injection H as _ <-; [reflexivity|].
  simpl. apply lookup_insert_ne. congruence.
Qed.

Lemma only_touches_writerow env path k rec :
  only_touches path (writerow env path k rec).
Proof.
  apply only_touches_bind; [apply only_touches_io_flush|].
  intros _ st r st' p H Hp. injection H as _ <-. simpl.
  apply lookup_insert_ne. congruence.
Qed.

Lemma only_touches_write_rows env path headers rows : forall k,
  only_touches path (write_rows env path headers k rows).
Proof.
  induction rows as [|row rows IH]; intros k; simpl.
  - intros st r st' p H _. injection H as _ <-. reflexivity.
  - apply only_touches_bind; [apply only_touches_lift|]. intros vs.
    apply only_touches_bind; [apply only_touches_writerow|]. intros _. apply IH.
Qed.

Lemma only_touches_write_csv env path headers rows :
  only_touches path (write_csv env path headers rows).
Proof.
  unfold write_csv.
  apply only_touches_bind.
  { apply only_touches_bind; [apply only_touches_io_step|].
    intros _ st r st' p H Hp. injection H as _ <-. simpl.
    apply lookup_insert_ne. congruence. }
  intros _. apply only_touches_bind; [apply only_touches_lift|]. intros hs.
  apply only_touches_bind; [apply only_touches_writerow|]. intros _.
  apply only_touches_bind; [apply only_touches_lift|]. intros rrows.
  apply only_touches_bind; [apply only_touches_write_rows|]. intros _.
  apply only_touches_io_flush.
Qed.

Lemma scrape_frame env url child_dir t st c st' p :
  scrape_and_ingest_csv env url child_dir t st = (c, st') ->
  p <> os_path_join child_dir (t +:+ ".csv") ->
  fs st' !! p = fs st !! p.
Proof.
  rewrite scrape_by_stages. intros H Hp.
  destruct (fetch env url st) as [[hr|rv|e] s1] eqn:Hf;
    pose proof (fetch_fs _ _ _ _ _ Hf) as Hfs.
  - destruct (bool_decide _).
    + destruct (write_csv _ _ _ _ s1) as [[u|rv|e] s2] eqn:Hw;
        pose proof (only_touches_write_csv _ _ _ _ _ _ _ _ Hw Hp) as Hq;
        try destruct (is_IOError e); simplify_eq; simpl; congruence.
    + simplify_eq. simpl. congruence.
  - simplify_eq. congruence.
  - simplify_eq. simpl. congruence.
Qed.

(** X6. However it ends, the operation changes no path other than
    [os.path.join(child_dir, t + ".csv")]: the files of other tickers,
    the directory itself and everything else stay as they were. *)
Theorem scrape_touches_only_its_file env url child_dir t st p :
  p <> os_path_join child_dir (t +:+ ".csv") ->
  fs (snd (scrape_and_ingest_csv env url child_dir t st)) !! p = fs st !! p.
Proof.
  intros Hp.
  destruct (scrape_and_ingest_csv env url child_dir t st) as [c st'] eqn:E.
  exact (scrape_frame _ _ _ _ _ _ _ _ E Hp).
Qed.

Lemma scrape_touches_only_its_file_witness :
  "out/notes.txt" <> os_path_join "out" ("AAPL" +:+ ".csv") /\
  fs (snd (scrape_and_ingest_csv Examples.aapl_env "u" "out" "AAPL" Examples.run_dir))
    !! "out/notes.txt"
  = fs Examples.run_dir !! "out/notes.txt".
Proof.
  assert (H : "out/notes.txt" <> os_path_join "out" ("AAPL" +:+ ".csv"))
    by discriminate.
  split; [exact H|].
  exact (scrape_touches_only_its_file Examples.aapl_env "u" "out" "AAPL"
           Examples.run_dir "out/notes.txt" H).
Defined.

(** ** Running the write stage forwards *)

Lemma io_step_eq env path k st :
  io_step env path k st =
  match io_fault env path with
  | Some (k', e) => if Nat.eqb k k' then (Exc e, st) else (Val tt, st)
  | None => (Val tt, st)
  end.
Proof.
  unfold io_step. destruct (io_fault env path) as [[k' e]|]; [|reflexivity].
  destruct (Nat.eqb k k'); reflexivity.
Qed.

(** [k] is not the operation at which the disk fails. *)
Lemma io_step_pass env path k st :
  (forall e, io_fault env path <> Some (k, e)) ->
  io_step env path k st = (Val tt, st).
Proof.
  intros H. rewrite io_step_eq.
  destruct (io_fault env path) as [[k' e]|]; [|reflexivity].
  destruct (Nat.eqb_spec k k') as [->|_]; [|reflexivity].
  exfalso. exact (H e eq_refl).
Qed.

Lemma io_step_fail env path k e st :
  io_fault env path = Some (k, e) -> io_step env path k st = (Exc e, st).
Proof. intros H. rewrite io_step_eq, H, Nat.eqb_refl. reflexivity. Qed.

Lemma io_flush_pass env path k st :
  (forall e, io_fault env path <> Some (k, e)) ->
  io_flush env path k st = (Val tt, st).
Proof.
  intros H. unfold io_flush.
  destruct (io_fault env path) as [[k' e]|]; [|reflexivity].
  destruct (Nat.eqb_spec k k') as [->|_]; [|reflexivity].
  exfalso. exact (H e eq_refl).
Qed.

Lemma io_flush_fail env path k e st :
  io_fault env path = Some (k, e) ->
  io_flush env path k st
  = (Exc e, mkState (<[path := CsvFile (io_leftover env path)]> (fs st)) (console st)).
Proof. intros H. unfold io_flush. rewrite H, Nat.eqb_refl. reflexivity. Qed.

Lemma writerow_pass env path k rec st old :
  (forall e, io_fault env path <> Some (k, e)) ->
  fs st !! path = Some (CsvFile old) ->
  writerow env path k rec st
    = (Val tt, mkState (<[path := CsvFile (old ++ [rec])]> (fs st)) (console st)).
Proof.
  intros Hk Hold. unfold writerow, bind. rewrite (io_flush_pass _ _ _ _ Hk).
  unfold append_record. rewrite Hold. reflexivity.
Qed.

Lemma row_values_dict hd rd :
  row_values (PDict hd) (PDict rd) = inr (project (dict_keys hd) rd).
Proof. unfold row_values. simpl. apply gets_dict. Qed.

(** The loop over rows that are dicts, when the disk does not fail at
    any of its writes. *)
Lemma write_rows_pass env path hd rds : forall k st old,
  (forall j e, io_fault env path = Some (j, e) ->
               (j < k \/ k + length rds <= j)%nat) ->
  fs st !! path = Some (CsvFile old) ->
  write_rows env path (PDict hd) k (map PDict rds) st
    = (Val tt,
       mkState (<[path := CsvFile (old ++ map (project (dict_keys hd)) rds)]> (fs st))
               (console st)).
Proof.
  induction rds as [|rd rds IH]; intros k st old Hk Hold; simpl.
  - rewrite app_nil_r, insert_id by assumption. destruct st; reflexivity.
  - unfold bind at 1, lift. rewrite row_values_dict. unfold ret at 1.
    unfold bind at 1. rewrite (writerow_pass _ _ _ _ _ old); [|
      intros e He; specialize (Hk _ _ He); simpl in Hk; lia | assumption ].
    rewrite (IH _ _ (old ++ [project (dict_keys hd) rd]));
      [| intros j e He; specialize (Hk _ _ He); simpl in Hk; lia
       | simpl; apply lookup_insert_eq ].
    simpl. rewrite insert_insert_eq, <- app_assoc. reflexivity.
Qed.

(** The loop when the write of row [j - k] raises: the file holds what
    had reached the disk. *)
Lemma write_rows_fail env path hd rds : forall k st old j e,
  io_fault env path = Some (j, e) ->
  (k <= j < k + length rds)%nat ->
  fs st !! path = Some (CsvFile old) ->
  write_rows env path (PDict hd) k (map PDict rds) st
    = (Exc e,
       mkState (<[path := CsvFile (io_leftover env path)]> (fs st)) (console st)).
Proof.
  induction rds as [|rd rds IH]; intros k st old j e Hf Hj Hold; simpl in *;
    [lia|].
  unfold bind at 1, lift. rewrite row_values_dict. unfold ret at 1.
  unfold bind at 1.
  destruct (Nat.eq_dec j k) as [->|Hne].
  - unfold writerow, bind. rewrite (io_flush_fail _ _ _ _ _ Hf). reflexivity.
  - rewrite (writerow_pass _ _ _ _ _ old); [|
      intros e' He; rewrite Hf in He; congruence | assumption ].
    rewrite (IH _ _ (old ++ [project (dict_keys hd) rd]) j e Hf);
      [| lia | simpl; apply lookup_insert_eq ].
    simpl. rewrite insert_insert_eq. reflexivity.
Qed.

(** The [with] block on a well-formed table, when the disk does not
    fail. *)
Lemma write_csv_pass env path hd rds st :
  (forall j e, io_fault env path = Some (j, e) -> (2 + length rds < j)%nat) ->
  write_csv env path (PDict hd) (PList (map PDict rds)) st
    = (Val tt, mkState (<[path := CsvFile (full_file hd rds)]> (fs st)) (console st)).
Proof.
  intros Hk. unfold write_csv, open_w.
  assert (Hp : forall k, (k <= 2 + length rds)%nat ->
                         forall e, io_fault env path <> Some (k, e)).
  { intros k Hle e He. specialize (Hk _ _ He). lia. }
  unfold bind at 1. unfold bind at 1. rewrite (io_step_pass _ _ 0%nat) by (apply Hp; lia).
  unfold set_file at 1. unfold bind at 1, lift at 1, py_values, ret at 1.
  unfold bind at 1.
  rewrite (writerow_pass _ _ _ _ _ []);
    [| apply Hp; lia | simpl; apply lookup_insert_eq ].
  unfold bind at 1, lift at 1, py_reversed, ret at 1.
  rewrite <- map_rev. unfold bind at 1.
  rewrite (write_rows_pass _ _ _ _ _ _ [dict_values hd]);
    [| intros j e He; specialize (Hk _ _ He); rewrite length_rev; lia
     | simpl; apply lookup_insert_eq ].
  rewrite io_flush_pass by (apply Hp; rewrite length_map, length_rev; lia).
  simpl. rewrite !insert_insert_eq. reflexivity.
Qed.

(** The [with] block on a well-formed table, when operation [S j], a
    [writerow] or the close, raises: the file holds what had reached the
    disk. *)
Lemma write_csv_fail env path hd rds st j e :
  io_fault env path = Some (S j, e) ->
  (j <= S (length rds))%nat ->
  write_csv env path (PDict hd) (PList (map PDict rds)) st
    = (Exc e,
       mkState (<[path := CsvFile (io_leftover env path)]> (fs st)) (console st)).
Proof.
  intros Hf Hj. unfold write_csv, open_w.
  unfold bind at 1. unfold bind at 1.
  rewrite (io_step_pass _ _ 0%nat) by (intros e' He; rewrite Hf in He; discriminate).
  unfold set_file at 1. unfold bind at 1, lift at 1, py_values, ret at 1.
  unfold bind at 1.
  destruct j as [|j].
  { unfold writerow, bind. rewrite (io_flush_fail _ _ _ _ _ Hf).
    simpl. rewrite insert_insert_eq. reflexivity. }
  rewrite (writerow_pass _ _ _ _ _ []);
    [| intros e' He; rewrite Hf in He; discriminate
     | simpl; apply lookup_insert_eq ].
  unfold bind at 1, lift at 1, py_reversed, ret at 1.
  rewrite <- map_rev. unfold bind at 1.
  destruct (Nat.eq_dec j (length rds)) as [->|Hne].
  - rewrite (write_rows_pass _ _ _ _ _ _ [dict_values hd]);
      [| intros j' e' He; rewrite Hf in He; injection He as <- <-;
         rewrite length_rev; lia
       | simpl; apply lookup_insert_eq ].
    rewrite (io_flush_fail _ _ _ e)
      by (rewrite length_map, length_rev; exact Hf).
    simpl. rewrite !insert_insert_eq. reflexivity.
  - rewrite (write_rows_fail _ _ _ _ _ _ [dict_values hd] (S (S j)) e Hf);
      [| rewrite length_rev; lia | simpl; apply lookup_insert_eq ].
    simpl. rewrite !insert_insert_eq. reflexivity.
Qed.

Lemma as_dicts_Some l rds : as_dicts l = Some rds -> l = map PDict rds.
Proof.
  revert rds. induction l as [|v l IH]; intros rds H; simpl in H.
  - simplify_eq. reflexivity.
  - destruct v; try discriminate.
    destruct (as_dicts l) as [ds|] eqn:E; [|discriminate].
    simplify_eq. simpl. f_equal. apply IH. reflexivity.
Qed.

(** The fetch stage on a response of status 200 whose body has the
    documented shape, with a header mapping and rows that are not empty. *)
Lemma fetch_table_run env url st resp hd rds :
  requests_get env url = inr resp -> status_code resp = 200 ->
  api_table env url = Some (hd, rds) -> hd <> [] -> rds <> [] ->
  fetch env url st = (Val (PDict hd, PList (map PDict rds)), st).
Proof.
  intros Hr Hs Ht Hhd Hrds. unfold api_table in Ht. rewrite Hr in Ht.
  destruct (json resp) as [e|data] eqn:Hj; [discriminate|].
  unfold table_of_body in Ht.
  destruct data as [| | | | | |d]; try discriminate.
  destruct (dict_lookup d "data") as [[| | | | | |inner]|] eqn:Hd; try discriminate.
  destruct (dict_lookup inner "tradesTable") as [[| | | | | |table]|] eqn:Hi;
    try discriminate.
  destruct (dict_lookup table "headers") as [[| | | | | |hd']|] eqn:Hh;
    try discriminate.
  destruct (dict_lookup table "rows") as [[| | | | |rows|]|] eqn:Hw;
    try discriminate.
  destruct (as_dicts rows) as [rds'|] eqn:Ha; [|discriminate].
  injection Ht as -> ->. apply as_dicts_Some in Ha. subst rows.
  unfold fetch, bind, try_except, lift, raise, ret, return_, print.
  apply Z.eqb_eq in Hs. rewrite Hr, Hs, Hj. simpl. rewrite Hd. simpl. rewrite Hi.
  assert (Htt : truthy (PDict table) = true).
  { destruct table; [discriminate|reflexivity]. }
  rewrite Htt. simpl. rewrite Hh, Hw.
  destruct hd; [congruence|]. destruct rds; [congruence|]. reflexivity.
Qed.

(** ** Success, and running twice *)

Lemma write_csv_open_fail env path headers rows st e :
  io_fault env path = Some (0%nat, e) ->
  write_csv env path headers rows st = (Exc e, st).
Proof.
  intros Hf. unfold write_csv, open_w, bind.
  rewrite (io_step_fail _ _ _ _ _ Hf). reflexivity.
Qed.

(** A well-formed table, an existing directory and a disk that does not
    fail while the file is written. *)
Lemma scrape_table_run env url child_dir t st resp hd rows :
  requests_get env url = inr resp -> status_code resp = 200 ->
  api_table env url = Some (hd, rows) -> hd <> [] -> rows <> [] ->
  is_Some (fs st !! child_dir) ->
  (forall j e, io_fault env (os_path_join child_dir (t +:+ ".csv")) = Some (j, e) ->
               (2 + length rows < j)%nat) ->
  scrape_and_ingest_csv env url child_dir t st
    = (Return (Some SUCCESS),
       mkState (<[os_path_join child_dir (t +:+ ".csv") :=
                    CsvFile (full_file hd rows)]> (fs st))
               (console st)).
Proof.
  intros Hr Hs Ht Hhd Hrows Hdir Hio. rewrite scrape_by_stages.
  rewrite (fetch_table_run _ _ _ _ _ _ Hr Hs Ht Hhd Hrows).
  rewrite bool_decide_eq_true_2 by assumption. simpl.
  rewrite write_csv_pass by assumption. reflexivity.
Qed.

(** X7. The operation returns [SUCCESS] exactly when the status is 200,
    the body has the documented shape with a non-empty header mapping and
    at least one row, all rows being objects, the directory exists and the
    disk does not fail before the file is closed. The file then holds the
    whole table, whatever was at its path before, and nothing is
    printed. *)
Theorem success_iff env url child_dir t st st' :
  scrape_and_ingest_csv env url child_dir t st = (Return (Some SUCCESS), st')
  <-> exists resp hd rows,
        requests_get env url = inr resp /\ status_code resp = 200 /\
        api_table env url = Some (hd, rows) /\ hd <> [] /\ rows <> [] /\
        is_Some (fs st !! child_dir) /\
        (forall j e,
           io_fault env (os_path_join child_dir (t +:+ ".csv")) = Some (j, e) ->
           (2 + length rows < j)%nat) /\
        st' = mkState (<[os_path_join child_dir (t +:+ ".csv") :=
                           CsvFile (full_file hd rows)]> (fs st))
                      (console st).
Proof.
  split.
  - intros H.
    destruct (scrape_success _ _ _ _ _ _ H) as (hd & rds & Ht & Hhd & Hrds & Hdir & ->).
    assert (exists resp, requests_get env url = inr resp /\ status_code resp = 200)
      as (resp & Hr & Hs).
    { rewrite scrape_by_stages in H.
      destruct (fetch env url st) as [[[h r]|rv|e] s1] eqn:Hf.
      - destruct (fetch_val _ _ _ _ _ _ Hf) as (_ & resp & ? & ? & ? & Hr & Hs & _).
        eauto.
      - injection H as -> _. exfalso. exact (fetch_not_success _ _ _ _ Hf).
      - discriminate. }
    exists resp, hd, rds. repeat (split; [assumption|]). split; [|reflexivity].
    intros j e He.
    destruct (Nat.lt_ge_cases (2 + length rds) j) as [|Hle]; [assumption|].
    exfalso. rewrite scrape_by_stages in H.
    rewrite (fetch_table_run _ _ _ _ _ _ Hr Hs Ht Hhd Hrds) in H.
    rewrite bool_decide_eq_true_2 in H by assumption. simpl in H.
    destruct j as [|j].
    + rewrite (write_csv_open_fail _ _ _ _ _ _ He) in H.
      destruct (is_IOError e); discriminate.
    + rewrite (write_csv_fail _ _ _ _ _ _ _ He) in H by lia.
      destruct (is_IOError e); discriminate.
  - intros (resp & hd & rows & Hr & Hs & Ht & Hhd & Hrows & Hdir & Hio & ->).
    exact (scrape_table_run _ _ _ _ _ _ _ _ Hr Hs Ht Hhd Hrows Hdir Hio).
Qed.

(** X8. A successful run is idempotent: run again on the state it
    leaves, the operation returns [SUCCESS] and leaves that state as it
    is. *)
Theorem rerun_changes_nothing env url child_dir t st st1 :
  scrape_and_ingest_csv env url child_dir t st = (Return (Some SUCCESS), st1) ->
  scrape_and_ingest_csv env url child_dir t st1 = (Return (Some SUCCESS), st1).
Proof.
  intros H.
  destruct (scrape_success _ _ _ _ _ _ H) as (hd & rds & Ht & Hhd & Hrds & Hdir & ->).
  rewrite scrape_by_stages in H |- *.
  destruct (fetch env url st) as [[[h r]|rv|e] s0] eqn:Hf;
    [| injection H as -> _; exfalso; exact (fetch_not_success _ _ _ _ Hf)
     | discriminate ].
  destruct (fetch_val _ _ _ _ _ _ Hf) as (-> & resp & ? & ? & ? & Hr & Hs & _).
  rewrite (fetch_table_run _ _ _ _ _ _ Hr Hs Ht Hhd Hrds) in Hf.
  injection Hf as <- <-.
  rewrite (fetch_table_run _ _ _ _ _ _ Hr Hs Ht Hhd Hrds).
  rewrite bool_decide_eq_true_2 in H by assumption. simpl in H.
  set (path := os_path_join child_dir (t +:+ ".csv")) in *.
  assert (Hio : forall j e, io_fault env path = Some (j, e) ->
                            (2 + length rds < j)%nat).
  { intros j e He.
    destruct (Nat.lt_ge_cases (2 + length rds) j) as [|Hle]; [assumption|].
    exfalso. destruct j as [|j].
    - rewrite (write_csv_open_fail _ _ _ _ _ _ He) in H.
      destruct (is_IOError e); discriminate.
    - rewrite (write_csv_fail _ _ _ _ _ _ _ He) in H by lia.
      destruct (is_IOError e); discriminate. }
  assert (Hdir' : is_Some (<[path := CsvFile (dict_values hd
                     :: map (project (dict_keys hd)) (rev rds))]> (fs st) !! child_dir)).
  { destruct (decide (path = child_dir)) as [E|E].
    - rewrite E, lookup_insert_eq. eauto.
    - rewrite lookup_insert_ne by assumption. assumption. }
  simpl fs. rewrite bool_decide_eq_true_2 by assumption. simpl.
  rewrite write_csv_pass by assumption. simpl.
  rewrite insert_insert_eq. reflexivity.
Qed.

Lemma rerun_changes_nothing_witness :
  let st1 := snd (scrape_and_ingest_csv Examples.aapl_env "u" "out" "AAPL"
                    Examples.run_dir) in
  scrape_and_ingest_csv Examples.aapl_env "u" "out" "AAPL" Examples.run_dir
    = (Return (Some SUCCESS), st1) /\
  scrape_and_ingest_csv Examples.aapl_env "u" "out" "AAPL" st1
    = (Return (Some SUCCESS), st1).
Proof.
  intros st1. split; [reflexivity|].
  apply (rerun_changes_nothing Examples.aapl_env "u" "out" "AAPL" Examples.run_dir st1).
  reflexivity.
Defined.

(** ** Failures while the file is written *)

(** X9. When [open] raises an [IOError], the operation returns
    [ERROR_IO], prints the error with its message and leaves the file
    system as it was: no file is created, and a file of an earlier run
    keeps its content. *)
Theorem open_failure_creates_nothing env url child_dir t st hr e :
  fst (fetch env url st) = Val hr ->
  is_Some (fs st !! child_dir) ->
  io_fault env (os_path_join child_dir (t +:+ ".csv")) = Some (0%nat, e) ->
  is_IOError e = true ->
  scrape_and_ingest_csv env url child_dir t st
    = (Return (Some ERROR_IO),
       mkState (fs st)
         (console st ++ ["Error: Failed to write to file for URL " +:+ url
                         +:+ ". " +:+ exn_msg e])).
Proof.
  intros Hf Hdir Hio He. rewrite scrape_by_stages.
  destruct (fetch env url st) as [[[h r]|rv|e'] s1] eqn:E; try discriminate.
  destruct (fetch_val _ _ _ _ _ _ E) as [-> _].
  rewrite bool_decide_eq_true_2 by assumption.
  rewrite (write_csv_open_fail _ _ _ _ _ _ Hio), He. reflexivity.
Qed.

Lemma open_failure_creates_nothing_witness :
  let env := Examples.faulty_env 0 Examples.disk_full in
  (exists hr, fst (fetch env "u" Examples.run_dir) = Val hr) /\
  is_Some (fs Examples.run_dir !! "out") /\
  io_fault env (os_path_join "out" ("AAPL" +:+ ".csv"))
    = Some (0%nat, Examples.disk_full) /\
  is_IOError Examples.disk_full = true /\
  scrape_and_ingest_csv env "u" "out" "AAPL" Examples.run_dir
    = (Return (Some ERROR_IO),
       mkState (fs Examples.run_dir)
         (console Examples.run_dir
          ++ ["Error: Failed to write to file for URL " +:+ "u"
              +:+ ". " +:+ exn_msg Examples.disk_full])).
Proof.
  intros env.
  assert (Hd : is_Some (fs Examples.run_dir !! "out")) by (eexists; reflexivity).
  split; [eexists; reflexivity|]. split; [exact Hd|].
  split; [reflexivity|]. split; [reflexivity|].
  eapply (open_failure_creates_nothing env "u" "out" "AAPL" Examples.run_dir);
    [reflexivity | exact Hd | reflexivity | reflexivity].
Defined.

(** X10. When a [writerow] or the close raises while a well-formed
    table is written, the code is [ERROR_IO] for an [IOError] and
    [ERROR_UNKNOWN] for anything else, with the matching line and the
    exception's message; nothing is rolled back: the file stays, holding
    what had reached the disk when the operation raised. *)
Theorem disk_failure_is_not_rolled_back env url child_dir t st resp hd rows j e :
  requests_get env url = inr resp -> status_code resp = 200 ->
  api_table env url = Some (hd, rows) -> hd <> [] -> rows <> [] ->
  is_Some (fs st !! child_dir) ->
  io_fault env (os_path_join child_dir (t +:+ ".csv")) = Some (S j, e) ->
  (j <= S (length rows))%nat ->
  scrape_and_ingest_csv env url child_dir t st
    = (Return (Some (if is_IOError e then ERROR_IO else ERROR_UNKNOWN)),
       mkState
         (<[os_path_join child_dir (t +:+ ".csv") :=
              CsvFile (io_leftover env (os_path_join child_dir (t +:+ ".csv")))]>
            (fs st))
         (console st
          ++ [if is_IOError e
              then "Error: Failed to write to file for URL " +:+ url +:+ ". "
                   +:+ exn_msg e
              else "Unexpected error for URL " +:+ url +:+ ": " +:+ exn_msg e])).
Proof.
  intros Hr Hs Ht Hhd Hrows Hdir Hio Hj. rewrite scrape_by_stages.
  rewrite (fetch_table_run _ _ _ _ _ _ Hr Hs Ht Hhd Hrows).
  rewrite bool_decide_eq_true_2 by assumption. simpl.
  rewrite (write_csv_fail _ _ _ _ _ _ _ Hio Hj).
  destruct (is_IOError e); reflexivity.
Qed.

Lemma disk_failure_is_not_rolled_back_witness :
  let env := Examples.faulty_env 3 Examples.disk_full in
  let resp := mkResponse 200 (inr Examples.aapl_body) in
  let path := os_path_join "out" ("MSFT" +:+ ".csv") in
  requests_get env "u" = inr resp /\ status_code resp = 200 /\
  exists hd rows,
    api_table env "u" = Some (hd, rows) /\ hd <> [] /\ rows <> [] /\
    is_Some (fs Examples.run_dir !! "out") /\
    io_fault env path = Some (3%nat, Examples.disk_full) /\
    (2 <= S (length rows))%nat /\
    scrape_and_ingest_csv env "u" "out" "MSFT" Examples.run_dir
      = (Return (Some (if is_IOError Examples.disk_full
                       then ERROR_IO else ERROR_UNKNOWN)),
         mkState (<[path := CsvFile (io_leftover env path)]> (fs Examples.run_dir))
           (console Examples.run_dir
            ++ [if is_IOError Examples.disk_full
                then "Error: Failed to write to file for URL " +:+ "u" +:+ ". "
                     +:+ exn_msg Examples.disk_full
                else "Unexpected error for URL " +:+ "u" +:+ ": "
                     +:+ exn_msg Examples.disk_full])).
Proof.
  intros env resp path. split; [reflexivity|]. split; [reflexivity|].
  assert (Hd : is_Some (fs Examples.run_dir !! "out")) by (eexists; reflexivity).
  eexists _, _. split; [reflexivity|].
  split; [discriminate|]. split; [discriminate|]. split; [exact Hd|].
  split; [reflexivity|]. split; [simpl; lia|].
  eapply (disk_failure_is_not_rolled_back env "u" "out" "MSFT" Examples.run_dir resp
            _ _ 2%nat);
    try reflexivity; try discriminate; [exact Hd | simpl; lia].
Defined.

(** X11. A header mapping that is truthy without being an object (a
    list, a string, a number) passes the presence checks; the file is
    opened before [headers.values()] is evaluated, so the operation
    returns [ERROR_UNKNOWN] and leaves an empty file behind. *)
Theorem non_dict_headers_leave_empty_file env url child_dir t st headers rows s1 :
  fetch env url st = (Val (headers, rows), s1) ->
  (forall hd, headers <> PDict hd) ->
  is_Some (fs st !! child_dir) ->
  (forall e, io_fault env (os_path_join child_dir (t +:+ ".csv")) <> Some (0%nat, e)) ->
  scrape_and_ingest_csv env url child_dir t st
    = (Return (Some ERROR_UNKNOWN),
       mkState (<[os_path_join child_dir (t +:+ ".csv") := CsvFile []]> (fs st))
         (console st ++ ["Unexpected error for URL " +:+ url +:+ ": '"
                         +:+ type_name headers
                         +:+ "' object has no attribute 'values'"])).
Proof.
  intros Hf Hh Hdir Hio. rewrite scrape_by_stages, Hf.
  destruct (fetch_val _ _ _ _ _ _ Hf) as [-> _].
  rewrite bool_decide_eq_true_2 by assumption. simpl.
  unfold write_csv, open_w. unfold bind at 1. unfold bind at 1.
  rewrite (io_step_pass _ _ _ _ Hio). unfold set_file at 1.
  unfold bind at 1, lift at 1.
  destruct headers; try (exfalso; eapply Hh; reflexivity); reflexivity.
Qed.

Lemma non_dict_headers_leave_empty_file_witness :
  let env := Examples.list_headers_env in
  let headers := PList [PStr "Date"] in
  let rows := PList [PDict [("date", PStr "11/02/2026")]] in
  fetch env "u" Examples.start = (Val (headers, rows), Examples.start) /\
  (forall hd, headers <> PDict hd) /\
  is_Some (fs Examples.start !! "out") /\
  (forall e, io_fault env (os_path_join "out" ("AAPL" +:+ ".csv")) <> Some (0%nat, e)) /\
  scrape_and_ingest_csv env "u" "out" "AAPL" Examples.start
    = (Return (Some ERROR_UNKNOWN),
       mkState (<[os_path_join "out" ("AAPL" +:+ ".csv") := CsvFile []]>
                  (fs Examples.start))
         (console Examples.start
          ++ ["Unexpected error for URL " +:+ "u" +:+ ": '"
              +:+ type_name headers +:+ "' object has no attribute 'values'"])).
Proof.
  intros env headers rows.
  assert (Hd : is_Some (fs Examples.start !! "out")) by (eexists; reflexivity).
  assert (Hh : forall hd, headers <> PDict hd) by discriminate.
  assert (Hio : forall e, io_fault env (os_path_join "out" ("AAPL" +:+ ".csv"))
                          <> Some (0%nat, e)) by discriminate.
  split; [reflexivity|]. split; [exact Hh|]. split; [exact Hd|]. split; [exact Hio|].
  exact (non_dict_headers_leave_empty_file env "u" "out" "AAPL" Examples.start
           headers rows Examples.start eq_refl Hh Hd Hio).
Defined.

Lemma write_rows_prefix env path hd a rest : forall k st old,
  (forall j e, io_fault env path = Some (j, e) ->
               (j < k \/ k + length a <= j)%nat) ->
  fs st !! path = Some (CsvFile old) ->
  write_rows env path (PDict hd) k (map PDict a ++ rest) st
  = write_rows env path (PDict hd) (k + length a) rest
      (mkState (<[path := CsvFile (old ++ map (project (dict_keys hd)) a)]> (fs st))
               (console st)).
Proof.
  induction a as [|rd a IH]; intros k st old Hk Hold; simpl.
  - rewrite app_nil_r, insert_id, Nat.add_0_r by assumption. destruct st; reflexivity.
  - unfold bind at 1, lift. rewrite row_values_dict. unfold ret at 1.
    unfold bind at 1. rewrite (writerow_pass _ _ _ _ _ old); [|
      intros e He; specialize (Hk _ _ He); simpl in Hk; lia | assumption ].
    rewrite (IH _ _ (old ++ [project (dict_keys hd) rd]));
      [| intros j e He; specialize (Hk _ _ He); simpl in Hk; lia
       | simpl; apply lookup_insert_eq ].
    simpl. rewrite insert_insert_eq, <- app_assoc, Nat.add_succ_r. reflexivity.
Qed.

Lemma row_values_not_dict hd bad :
  hd <> [] -> (forall rd, bad <> PDict rd) ->
  row_values (PDict hd) bad = inl (no_attribute bad "get").
Proof.
  intros Hhd Hbad. destruct hd as [|[key lbl] hd]; [congruence|].
  destruct bad; try reflexivity. exfalso. eapply Hbad. reflexivity.
Qed.

(** X12. A row that is not an object stops the write: the rows that
    come after it in the response (the older ones) are in the file, under
    the header; the row itself and the rows before it are not; the code is
    [ERROR_UNKNOWN]. *)
Theorem non_dict_row_stops_the_write env url child_dir t st hd newer bad older s1 :
  fetch env url st = (Val (PDict hd, PList (newer ++ bad :: map PDict older)), s1) ->
  (forall rd, bad <> PDict rd) ->
  is_Some (fs st !! child_dir) ->
  io_fault env (os_path_join child_dir (t +:+ ".csv")) = None ->
  scrape_and_ingest_csv env url child_dir t st
    = (Return (Some ERROR_UNKNOWN),
       mkState (<[os_path_join child_dir (t +:+ ".csv") :=
                    CsvFile (full_file hd older)]> (fs st))
         (console st ++ ["Unexpected error for URL " +:+ url +:+ ": '"
                         +:+ type_name bad +:+ "' object has no attribute 'get'"])).
Proof.
  intros Hf Hbad Hdir Hio. rewrite scrape_by_stages, Hf.
  destruct (fetch_val _ _ _ _ _ _ Hf) as (-> & resp & data & inner & table & H).
  destruct H as (_ & _ & _ & _ & _ & _ & _ & _ & Hht & _).
  rewrite bool_decide_eq_true_2 by assumption. simpl.
  set (path := os_path_join child_dir (t +:+ ".csv")) in *.
  assert (Hp : forall k e, io_fault env path <> Some (k, e))
    by (intros k e He; rewrite Hio in He; discriminate).
  unfold write_csv, open_w. unfold bind at 1. unfold bind at 1.
  rewrite (io_step_pass _ _ 0%nat) by apply Hp.
  unfold set_file at 1. unfold bind at 1, lift at 1, py_values, ret at 1.
  unfold bind at 1.
  rewrite (writerow_pass _ _ _ _ _ []);
    [| apply Hp | simpl; apply lookup_insert_eq ].
  unfold bind at 1, lift at 1, py_reversed, ret at 1.
  rewrite rev_app_distr. simpl rev. rewrite <- map_rev, <- !app_assoc.
  unfold bind at 1.
  rewrite (write_rows_prefix _ _ _ _ _ _ _ [dict_values hd]);
    [| intros j e He; rewrite Hio in He; discriminate
     | simpl; apply lookup_insert_eq ].
  simpl app. simpl write_rows.
  assert (Hhd : hd <> []) by (intros ->; discriminate).
  unfold bind at 1, lift. rewrite (row_values_not_dict _ _ Hhd Hbad).
  unfold raise. simpl. rewrite !insert_insert_eq. reflexivity.
Qed.

Lemma non_dict_row_stops_the_write_witness :
  let env := Examples.bad_row_env in
  let hd := [("date", PStr "Date"); ("close", PStr "Close/Last")] in
  let newer := [PDict [("date", PStr "11/02/2026"); ("close", PStr "$270.04")]] in
  let older := [[("date", PStr "10/29/2026"); ("close", PStr "$271.40")]] in
  fetch env "u" Examples.start
    = (Val (PDict hd, PList (newer ++ PStr "n/a" :: map PDict older)), Examples.start) /\
  (forall rd, PStr "n/a" <> PDict rd) /\
  is_Some (fs Examples.start !! "out") /\
  io_fault env (os_path_join "out" ("AAPL" +:+ ".csv")) = None /\
  scrape_and_ingest_csv env "u" "out" "AAPL" Examples.start
    = (Return (Some ERROR_UNKNOWN),
       mkState (<[os_path_join "out" ("AAPL" +:+ ".csv") :=
                    CsvFile (full_file hd older)]> (fs Examples.start))
         (console Examples.start
          ++ ["Unexpected error for URL " +:+ "u" +:+ ": '"
              +:+ type_name (PStr "n/a") +:+ "' object has no attribute 'get'"])).
Proof.
  intros env hd newer older.
  assert (Hd : is_Some (fs Examples.start !! "out")) by (eexists; reflexivity).
  assert (Hb : forall rd, PStr "n/a" <> PDict rd) by discriminate.
  split; [reflexivity|]. split; [exact Hb|]. split; [exact Hd|].
  split; [reflexivity|].
  exact (non_dict_row_stops_the_write env "u" "out" "AAPL" Examples.start hd newer
           (PStr "n/a") older Examples.start eq_refl Hb Hd eq_refl).
Defined.

(** ** The dictionary of sheets *)

Lemma dict_lookup_set_eq {A} (d : list (string * A)) k v :
  dict_lookup (dict_set d k v) k = Some v.
Proof.
  induction d as [|[k' v'] d IH]; simpl.
  - rewrite String.eqb_refl. reflexivity.
  - destruct (String.eqb_spec k' k) as [->|Hne]; simpl.
    + rewrite String.eqb_refl. reflexivity.
    + destruct (String.eqb_spec k' k); [congruence|]. exact IH.
Qed.

Lemma dict_lookup_set_ne {A} (d : list (string * A)) k v k0 :
  k <> k0 -> dict_lookup (dict_set d k v) k0 = dict_lookup d k0.
Proof.
  intros Hne. induction d as [|[k' v'] d IH]; simpl.
  - destruct (String.eqb_spec k k0); [congruence|reflexivity].
  - destruct (String.eqb_spec k' k) as [->|Hk]; simpl.
    + destruct (String.eqb_spec k k0); [congruence|reflexivity].
    + destruct (String.eqb_spec k' k0); [reflexivity|exact IH].
Qed.

Lemma dict_keys_set_in {A} (d : list (string * A)) k v :
  k ∈ dict_keys d -> dict_keys (dict_set d k v) = dict_keys d.
Proof.
  induction d as [|[k' v'] d IH]; simpl; intros Hin.
  - inversion Hin.
  - destruct (String.eqb_spec k' k) as [->|Hne]; [reflexivity|]. simpl.
    f_equal. apply IH. apply elem_of_cons in Hin as [->|Hin]; [congruence|exact Hin].
Qed.

Lemma dict_keys_set_new {A} (d : list (string * A)) k v :
  k ∉ dict_keys d -> dict_keys (dict_set d k v) = dict_keys d ++ [k].
Proof.
  induction d as [|[k' v'] d IH]; simpl; intros Hin; [reflexivity|].
  apply not_elem_of_cons in Hin as [Hne Hin].
  destruct (String.eqb_spec k' k) as [->|_]; [congruence|]. simpl.
  f_equal. apply IH. exact Hin.
Qed.

Lemma NoDup_dict_set {A} (d : list (string * A)) k v :
  NoDup (dict_keys d) -> NoDup (dict_keys (dict_set d k v)).
Proof.
  intros Hnd. destruct (decide (k ∈ dict_keys d)) as [Hin|Hin].
  - rewrite dict_keys_set_in by assumption. assumption.
  - rewrite dict_keys_set_new by assumption.
    apply NoDup_app. split; [assumption|]. split.
    + intros x Hx Hk. apply list_elem_of_singleton in Hk as ->. contradiction.
    + apply NoDup_singleton.
Qed.

Lemma elem_of_dict_set {A} (d : list (string * A)) k v n x :
  (n, x) ∈ dict_set d k v -> (n, x) = (k, v) \/ (n, x) ∈ d.
Proof.
  induction d as [|[k' v'] d IH]; simpl; intros Hin.
  - apply list_elem_of_singleton in Hin. auto.
  - destruct (String.eqb_spec k' k) as [->|Hne].
    + apply elem_of_cons in Hin as [Hin|Hin]; [auto|].
      right. apply elem_of_cons. auto.
    + apply elem_of_cons in Hin as [Hin|Hin].
      * right. rewrite Hin. apply elem_of_cons. auto.
      * destruct (IH Hin) as [?|?]; [auto|]. right. apply elem_of_cons. auto.
Qed.

Lemma dict_keys_set_mono {A} (d : list (string * A)) k v n :
  n ∈ dict_keys d -> n ∈ dict_keys (dict_set d k v).
Proof.
  intros Hn. destruct (decide (k ∈ dict_keys d)) as [Hin|Hin].
  - rewrite dict_keys_set_in by assumption. assumption.
  - rewrite dict_keys_set_new by assumption. apply elem_of_app. auto.
Qed.

Lemma dict_keys_set_key {A} (d : list (string * A)) k v :
  k ∈ dict_keys (dict_set d k v).
Proof.
  destruct (decide (k ∈ dict_keys d)) as [Hin|Hin].
  - rewrite dict_keys_set_in by assumption. assumption.
  - rewrite dict_keys_set_new by assumption. apply elem_of_app. right.
    apply list_elem_of_singleton. reflexivity.
Qed.

Lemma sheets_of_NoDup env files child_dir csv_files : forall sheets,
  NoDup (dict_keys sheets) ->
  NoDup (dict_keys (sheets_of env files child_dir csv_files sheets)).
Proof.
  induction csv_files as [|f rest IH]; intros sheets H; simpl; [assumption|].
  apply IH. destruct (read_ok env files child_dir f); [|assumption].
  apply NoDup_dict_set. assumption.
Qed.

Lemma sheets_of_sound env files child_dir csv_files : forall sheets n df,
  (n, df) ∈ sheets_of env files child_dir csv_files sheets ->
  (n, df) ∈ sheets \/
  exists f, f ∈ csv_files /\ read_ok env files child_dir f = Some df /\
            n = sheet_name_of child_dir f.
Proof.
  induction csv_files as [|f rest IH]; intros sheets n df H; simpl in H; [auto|].
  apply IH in H as [H|(g & Hg & Hr & Hn)].
  - destruct (read_ok env files child_dir f) as [df'|] eqn:E; [|auto].
    apply elem_of_dict_set in H as [H|H]; [|auto].
    injection H as -> ->. right. exists f. split; [apply elem_of_cons; auto|auto].
  - right. exists g. split; [apply elem_of_cons; auto|auto].
Qed.

Lemma sheets_of_keys_mono env files child_dir csv_files : forall sheets n,
  n ∈ dict_keys sheets ->
  n ∈ dict_keys (sheets_of env files child_dir csv_files sheets).
Proof.
  induction csv_files as [|f rest IH]; intros sheets n H; simpl; [assumption|].
  apply IH. destruct (read_ok env files child_dir f); [|assumption].
  apply dict_keys_set_mono. assumption.
Qed.

Lemma sheets_of_complete env files child_dir csv_files : forall sheets f,
  f ∈ csv_files -> is_Some (read_ok env files child_dir f) ->
  sheet_name_of child_dir f
    ∈ dict_keys (sheets_of env files child_dir csv_files sheets).
Proof.
  induction csv_files as [|g rest IH]; intros sheets f Hin Hok; [inversion Hin|].
  simpl. apply elem_of_cons in Hin as [->|Hin].
  - destruct Hok as [df ->]. apply sheets_of_keys_mono, dict_keys_set_key.
  - apply IH; assumption.
Qed.

(** The frame of the last file read under a name stays under that
    name. *)
Lemma sheets_of_last_wins env files child_dir post : forall sheets n df,
  dict_lookup sheets n = Some df ->
  (forall g, g ∈ post -> is_Some (read_ok env files child_dir g) ->
             sheet_name_of child_dir g <> n) ->
  dict_lookup (sheets_of env files child_dir post sheets) n = Some df.
Proof.
  induction post as [|g post IH]; intros sheets n df H Hpost; simpl; [assumption|].
  apply IH.
  - destruct (read_ok env files child_dir g) as [dg|] eqn:E; [|assumption].
    rewrite dict_lookup_set_ne; [assumption|].
    apply Hpost; [apply elem_of_cons; auto|eauto].
  - intros g' Hg'. apply Hpost. apply elem_of_cons. auto.
Qed.

Lemma to_excel_all_names sheets :
  map sheet_name (to_excel_all sheets) = dict_keys sheets.
Proof. unfold to_excel_all, dict_keys. rewrite map_map. reflexivity. Qed.

(** A run of the combiner that returns [SUCCESS] has written the sheets
    of the files it read. *)
Lemma combine_success env child_dir csv_files output_excel st st' :
  combine_csvs_to_excel env child_dir csv_files output_excel st
    = (Return (Some SUCCESS), st') ->
  sheets_of env (fs st) child_dir csv_files [] <> [] /\
  excel_fault env output_excel = None /\
  fs st' = <[output_excel :=
               XlsxFile (to_excel_all (sheets_of env (fs st) child_dir csv_files []))]>
             (fs st).
Proof.
  destruct (combine_spec env child_dir csv_files output_excel st) as (ws & _ & ->).
  destruct (sheets_of env (fs st) child_dir csv_files []) as [|s ss];
    [discriminate|].
  destruct (excel_fault env output_excel) as [[e leftover]|]; [discriminate|].
  intros H. injection H as <-. auto.
Qed.

(** C6. A file that does not exist or that [pd.read_csv] raises on is
    skipped with one console line; the loop collects from the whole list
    what it collects from the list without that file, and the combiner
    returns the same and leaves the same files as it does without that
    file; when another file of the list is read and the final write does
    not raise, the workbook is written from the remaining files: its
    sheets are those of the remaining files that are read, one per sheet
    name, each with the frame and the name of such a file and without
    index, and every remaining file that is read has its sheet. *)
Theorem unreadable_file_is_skipped env child_dir pre f post output_excel st :
  read_ok env (fs st) child_dir f = None ->
  (forall sheets, exists warning,
      read_sheet env child_dir sheets f st
        = (Val sheets, mkState (fs st) (console st ++ [warning]))) /\
  (forall sheets,
      fst (read_sheets env child_dir (pre ++ f :: post) sheets st)
      = fst (read_sheets env child_dir (pre ++ post) sheets st)) /\
  (fst (combine_csvs_to_excel env child_dir (pre ++ f :: post) output_excel st)
   = fst (combine_csvs_to_excel env child_dir (pre ++ post) output_excel st) /\
   fs (snd (combine_csvs_to_excel env child_dir (pre ++ f :: post) output_excel st))
   = fs (snd (combine_csvs_to_excel env child_dir (pre ++ post) output_excel st))) /\
  (forall g, g ∈ pre ++ post ->
      is_Some (read_ok env (fs st) child_dir g) ->
      excel_fault env output_excel = None ->
      exists st' sheets,
        combine_csvs_to_excel env child_dir (pre ++ f :: post) output_excel st
          = (Return (Some SUCCESS), st') /\
        fs st' = <[output_excel := XlsxFile sheets]> (fs st) /\
        sheets = map (fun item => mkSheet (fst item) (snd item) false)
                   (sheets_of env (fs st) child_dir (pre ++ post) []) /\
        sheets <> [] /\
        (forall s, s ∈ sheets ->
           exists h, h ∈ pre ++ post /\
                     read_ok env (fs st) child_dir h = Some (sheet_df s) /\
                     sheet_name s = sheet_name_of child_dir h /\
                     sheet_index s = false) /\
        (forall h, h ∈ pre ++ post ->
           is_Some (read_ok env (fs st) child_dir h) ->
           sheet_name_of child_dir h ∈ map sheet_name sheets)).
Proof.
  intros Hf.
  assert (Heq : sheets_of env (fs st) child_dir (pre ++ f :: post) []
                = sheets_of env (fs st) child_dir (pre ++ post) []).
  { rewrite !sheets_of_app. simpl. rewrite Hf. reflexivity. }
  split; [|split; [|split]].
  - intros sheets. apply read_sheet_skip. assumption.
  - intros sheets. apply read_sheets_skip. assumption.
  - destruct (combine_spec env child_dir (pre ++ f :: post) output_excel st)
      as (ws1 & _ & ->).
    destruct (combine_spec env child_dir (pre ++ post) output_excel st)
      as (ws2 & _ & ->).
    rewrite Heq.
    destruct (sheets_of env (fs st) child_dir (pre ++ post) []) as [|s ss];
      [split; reflexivity|].
    destruct (excel_fault env output_excel) as [[e leftover]|]; split; reflexivity.
  - intros g Hg Hok Hx.
    destruct (combine_spec env child_dir (pre ++ f :: post) output_excel st)
      as (ws & _ & ->).
    rewrite Heq, Hx.
    pose proof (sheets_of_nonempty env (fs st) child_dir _ g [] Hg Hok) as Hne.
    pose proof (sheets_of_sound env (fs st) child_dir (pre ++ post) []) as Hsound.
    pose proof (sheets_of_complete env (fs st) child_dir (pre ++ post) []) as Hcompl.
    destruct (sheets_of env (fs st) child_dir (pre ++ post) []) as [|s ss] eqn:E;
      [congruence|].
    eexists _, (to_excel_all (s :: ss)).
    split; [reflexivity|]. split; [reflexivity|]. split; [reflexivity|].
    split; [discriminate|]. split.
    + intros sh Hsh. unfold to_excel_all in Hsh.
      apply list_elem_of_fmap in Hsh as ([n df] & -> & Hin). simpl.
      destruct (Hsound n df Hin) as [Hin'|(h & Hh & Hr & Hn)]; [inversion Hin'|].
      exists h. auto.
    + intros h Hh Hr. rewrite to_excel_all_names. apply Hcompl; assumption.
Qed.

Lemma unreadable_file_is_skipped_witness :
  read_ok Examples.aapl_env (fs Examples.run_dir) "out" "GONE.csv" = None /\
  (forall sheets, exists warning,
      read_sheet Examples.aapl_env "out" sheets "GONE.csv" Examples.run_dir
        = (Val sheets,
           mkState (fs Examples.run_dir) (console Examples.run_dir ++ [warning]))) /\
  (forall sheets,
      fst (read_sheets Examples.aapl_env "out" ([] ++ "GONE.csv" :: ["AAPL.csv"])
             sheets Examples.run_dir)
      = fst (read_sheets Examples.aapl_env "out" ([] ++ ["AAPL.csv"])
               sheets Examples.run_dir)) /\
  (fst (combine_csvs_to_excel Examples.aapl_env "out"
          ([] ++ "GONE.csv" :: ["AAPL.csv"]) "out/combined.xlsx" Examples.run_dir)
   = fst (combine_csvs_to_excel Examples.aapl_env "out"
            ([] ++ ["AAPL.csv"]) "out/combined.xlsx" Examples.run_dir) /\
   fs (snd (combine_csvs_to_excel Examples.aapl_env "out"
              ([] ++ "GONE.csv" :: ["AAPL.csv"]) "out/combined.xlsx"
              Examples.run_dir))
   = fs (snd (combine_csvs_to_excel Examples.aapl_env "out"
                ([] ++ ["AAPL.csv"]) "out/combined.xlsx" Examples.run_dir))) /\
  (forall g, g ∈ [] ++ ["AAPL.csv"] ->
      is_Some (read_ok Examples.aapl_env (fs Examples.run_dir) "out" g) ->
      excel_fault Examples.aapl_env "out/combined.xlsx" = None ->
      exists st' sheets,
        combine_csvs_to_excel Examples.aapl_env "out"
          ([] ++ "GONE.csv" :: ["AAPL.csv"]) "out/combined.xlsx" Examples.run_dir
          = (Return (Some SUCCESS), st') /\
        fs st' = <["out/combined.xlsx" := XlsxFile sheets]> (fs Examples.run_dir) /\
        sheets = map (fun item => mkSheet (fst item) (snd item) false)
                   (sheets_of Examples.aapl_env (fs Examples.run_dir) "out"
                      ([] ++ ["AAPL.csv"]) []) /\
        sheets <> [] /\
        (forall s, s ∈ sheets ->
           exists h, h ∈ [] ++ ["AAPL.csv"] /\
                     read_ok Examples.aapl_env (fs Examples.run_dir) "out" h
                       = Some (sheet_df s) /\
                     sheet_name s = sheet_name_of "out" h /\
                     sheet_index s = false) /\
        (forall h, h ∈ [] ++ ["AAPL.csv"] ->
           is_Some (read_ok Examples.aapl_env (fs Examples.run_dir) "out" h) ->
           sheet_name_of "out" h ∈ map sheet_name sheets)).
Proof.
  split; [reflexivity|].
  apply (unreadable_file_is_skipped Examples.aapl_env "out" [] "GONE.csv"
           ["AAPL.csv"] "out/combined.xlsx" Examples.run_dir).
  reflexivity.
Defined.

(** ** The combiner as a whole *)

(** X13. The combiner never lets an exception through, and whatever it
    returns it changes no path other than [output_excel]: the [.csv] files
    and the directory are only read. *)
Theorem combiner_touches_only_the_workbook env child_dir csv_files output_excel st :
  (exists r, fst (combine_csvs_to_excel env child_dir csv_files output_excel st)
             = Return r) /\
  forall p, p <> output_excel ->
    fs (snd (combine_csvs_to_excel env child_dir csv_files output_excel st)) !! p
    = fs st !! p.
Proof.
  destruct (combine_spec env child_dir csv_files output_excel st) as (ws & _ & ->).
  destruct (sheets_of env (fs st) child_dir csv_files []) as [|s ss].
  - split; [eexists; reflexivity|]. reflexivity.
  - destruct (excel_fault env output_excel) as [[e [nd|]]|]; simpl;
      (split; [eexists; reflexivity|]); intros p Hp;
      try reflexivity; apply lookup_insert_ne; congruence.
Qed.

(** X14. The console of a run of the combiner: one line for each file
    of the list that was skipped, in the order of the list, and one last
    line, which is the success line, the no-file line or the diagnostic of
    the failed write. *)
Theorem combiner_console env child_dir csv_files output_excel st :
  exists warnings final,
    console (snd (combine_csvs_to_excel env child_dir csv_files output_excel st))
      = console st ++ warnings ++ [final] /\
    length warnings = length (skipped env (fs st) child_dir csv_files) /\
    (final = "Success!: " +:+ output_excel
     \/ final = "No valid CSV files were processed. Exiting..."
     \/ exists e, final = write_diagnostic output_excel e).
Proof.
  destruct (combine_spec env child_dir csv_files output_excel st) as (ws & Hlen & ->).
  exists ws.
  destruct (sheets_of env (fs st) child_dir csv_files []) as [|s ss].
  - eexists. split; [reflexivity|]. auto.
  - destruct (excel_fault env output_excel) as [[e leftover]|];
      eexists; (split; [reflexivity|]); eauto.
Qed.

(** X15. In a workbook the combiner has written, there is at least one
    sheet, the sheet names are pairwise distinct, and every sheet was
    written without an index column. *)
Theorem workbook_sheets_are_distinct env child_dir csv_files output_excel st st' :
  combine_csvs_to_excel env child_dir csv_files output_excel st
    = (Return (Some SUCCESS), st') ->
  exists sheets,
    fs st' !! output_excel = Some (XlsxFile sheets) /\
    sheets <> [] /\
    NoDup (map sheet_name sheets) /\
    Forall (fun s => sheet_index s = false) sheets.
Proof.
  intros H. apply combine_success in H as (Hne & _ & ->).
  exists (to_excel_all (sheets_of env (fs st) child_dir csv_files [])).
  split; [apply lookup_insert_eq|]. split; [|split].
  - destruct (sheets_of env (fs st) child_dir csv_files []); [congruence|discriminate].
  - rewrite to_excel_all_names. apply sheets_of_NoDup. constructor.
  - unfold to_excel_all. apply Forall_forall. intros s Hs.
    apply list_elem_of_fmap in Hs as (item & -> & _). reflexivity.
Qed.

Lemma workbook_sheets_are_distinct_witness :
  let st' := snd (combine_csvs_to_excel Examples.aapl_env "out"
                    ["AAPL.csv"; "AAPL.csv.csv"; "GONE.csv"] "out/combined.xlsx"
                    Examples.twin_dir) in
  combine_csvs_to_excel Examples.aapl_env "out"
    ["AAPL.csv"; "AAPL.csv.csv"; "GONE.csv"] "out/combined.xlsx" Examples.twin_dir
    = (Return (Some SUCCESS), st') /\
  exists sheets,
    fs st' !! "out/combined.xlsx" = Some (XlsxFile sheets) /\
    sheets <> [] /\
    NoDup (map sheet_name sheets) /\
    Forall (fun s => sheet_index s = false) sheets.
Proof.
  intros st'. split; [reflexivity|].
  apply (workbook_sheets_are_distinct Examples.aapl_env "out"
           ["AAPL.csv"; "AAPL.csv.csv"; "GONE.csv"] "out/combined.xlsx"
           Examples.twin_dir st').
  reflexivity.
Defined.

(** X16. The sheets of a written workbook are those of the files that
    were read: every sheet holds the frame [pd.read_csv] made of a file of
    the list and carries that file's sheet name, and the sheet name of
    every file that was read is the name of a sheet. *)
Theorem workbook_sheets_come_from_files env child_dir csv_files output_excel st st' :
  combine_csvs_to_excel env child_dir csv_files output_excel st
    = (Return (Some SUCCESS), st') ->
  exists sheets,
    fs st' !! output_excel = Some (XlsxFile sheets) /\
    (forall s, s ∈ sheets ->
       exists f, f ∈ csv_files /\
                 read_ok env (fs st) child_dir f = Some (sheet_df s) /\
                 sheet_name s = sheet_name_of child_dir f) /\
    (forall f, f ∈ csv_files -> is_Some (read_ok env (fs st) child_dir f) ->
       sheet_name_of child_dir f ∈ map sheet_name sheets).
Proof.
  intros H. apply combine_success in H as (_ & _ & ->).
  exists (to_excel_all (sheets_of env (fs st) child_dir csv_files [])).
  split; [apply lookup_insert_eq|]. split.
  - intros s Hs. unfold to_excel_all in Hs.
    apply list_elem_of_fmap in Hs as ([n df] & -> & Hin). simpl.
    apply sheets_of_sound in Hin as [Hin|Hin]; [inversion Hin|exact Hin].
  - intros f Hf Hok. rewrite to_excel_all_names.
    apply sheets_of_complete; assumption.
Qed.

Lemma workbook_sheets_come_from_files_witness :
  let st' := snd (combine_csvs_to_excel Examples.aapl_env "out"
                    ["notes.txt"; "AAPL.csv"] "out/combined.xlsx"
                    Examples.run_dir) in
  combine_csvs_to_excel Examples.aapl_env "out" ["notes.txt"; "AAPL.csv"]
    "out/combined.xlsx" Examples.run_dir
    = (Return (Some SUCCESS), st') /\
  exists sheets,
    fs st' !! "out/combined.xlsx" = Some (XlsxFile sheets) /\
    (forall s, s ∈ sheets ->
       exists f, f ∈ ["notes.txt"; "AAPL.csv"] /\
                 read_ok Examples.aapl_env (fs Examples.run_dir) "out" f
                   = Some (sheet_df s) /\
                 sheet_name s = sheet_name_of "out" f) /\
    (forall f, f ∈ ["notes.txt"; "AAPL.csv"] ->
       is_Some (read_ok Examples.aapl_env (fs Examples.run_dir) "out" f) ->
       sheet_name_of "out" f ∈ map sheet_name sheets).
Proof.
  intros st'. split; [reflexivity|].
  apply (workbook_sheets_come_from_files Examples.aapl_env "out"
           ["notes.txt"; "AAPL.csv"] "out/combined.xlsx" Examples.run_dir st').
  reflexivity.
Defined.

Lemma dict_lookup_elem {A} (d : list (string * A)) n v :
  dict_lookup d n = Some v -> (n, v) ∈ d.
Proof.
  induction d as [|[k x] d IH]; simpl; [discriminate|].
  destruct (String.eqb_spec k n) as [->|_].
  - intros H. injection H as ->. apply elem_of_cons. auto.
  - intros H. apply elem_of_cons. auto.
Qed.

Lemma NoDup_dict_lookup {A} (d : list (string * A)) n v :
  NoDup (dict_keys d) -> (n, v) ∈ d -> dict_lookup d n = Some v.
Proof.
  induction d as [|[k x] d IH]; simpl; intros Hnd Hin; [inversion Hin|].
  apply NoDup_cons in Hnd as [Hk Hnd].
  apply elem_of_cons in Hin as [Hin|Hin].
  - injection Hin as -> ->. rewrite String.eqb_refl. reflexivity.
  - destruct (String.eqb_spec k n) as [->|_]; [|apply IH; assumption].
    exfalso. apply Hk. unfold dict_keys.
    apply list_elem_of_fmap. exists (n, v). auto.
Qed.

(** X17. When several files of the list get the same sheet name, the
    written workbook has a sheet of that name, and it holds the frame of
    the last of them that was read: a later file silently replaces an
    earlier one. *)
Theorem last_file_of_a_name_wins env child_dir pre f post output_excel st df :
  read_ok env (fs st) child_dir f = Some df ->
  (forall g, g ∈ post -> is_Some (read_ok env (fs st) child_dir g) ->
             sheet_name_of child_dir g <> sheet_name_of child_dir f) ->
  excel_fault env output_excel = None ->
  exists sheets,
    fs (snd (combine_csvs_to_excel env child_dir (pre ++ f :: post) output_excel st))
      !! output_excel = Some (XlsxFile sheets) /\
    (exists s, s ∈ sheets /\ sheet_name s = sheet_name_of child_dir f /\
               sheet_df s = df /\ sheet_index s = false) /\
    (forall s, s ∈ sheets -> sheet_name s = sheet_name_of child_dir f ->
               sheet_df s = df).
Proof.
  intros Hf Hpost Hx.
  destruct (combine_spec env child_dir (pre ++ f :: post) output_excel st)
    as (ws & _ & ->).
  pose proof (sheets_of_nonempty env (fs st) child_dir (pre ++ f :: post) f []) as Hne.
  pose proof (sheets_of_NoDup env (fs st) child_dir (pre ++ f :: post) []
                (NoDup_nil_2)) as Hnd.
  assert (Hl : dict_lookup (sheets_of env (fs st) child_dir (pre ++ f :: post) [])
                 (sheet_name_of child_dir f) = Some df).
  { rewrite sheets_of_app. simpl. rewrite Hf.
    apply sheets_of_last_wins; [apply dict_lookup_set_eq|assumption]. }
  destruct (sheets_of env (fs st) child_dir (pre ++ f :: post) []) as [|s0 ss] eqn:E.
  - exfalso. apply Hne; [|eauto|reflexivity].
    apply elem_of_app. right. apply elem_of_cons. auto.
  - rewrite Hx. exists (to_excel_all (s0 :: ss)).
    split; [apply lookup_insert_eq|]. split.
    + exists (mkSheet (sheet_name_of child_dir f) df false).
      split; [|auto]. unfold to_excel_all. apply list_elem_of_fmap.
      exists (sheet_name_of child_dir f, df). split; [reflexivity|].
      apply dict_lookup_elem. assumption.
    + intros s Hs Hn. unfold to_excel_all in Hs.
      apply list_elem_of_fmap in Hs as ([n x] & -> & Hin). simpl in *. subst n.
      pose proof (NoDup_dict_lookup (s0 :: ss) _ _ Hnd Hin) as Hx'.
      change (dict_lookup (s0 :: ss) (sheet_name_of child_dir f) = Some df) in Hl.
      rewrite Hl in Hx'. injection Hx' as ->. reflexivity.
Qed.

Lemma last_file_of_a_name_wins_witness :
  let df := mkDataFrame [PStr "Date"; PStr "Close/Last"]
              [[PStr "10/29/2026"; PStr "$9"]] in
  read_ok Examples.aapl_env (fs Examples.twin_dir) "out" "AAPL.csv.csv" = Some df /\
  (forall g, g ∈ ["GONE.csv"] ->
     is_Some (read_ok Examples.aapl_env (fs Examples.twin_dir) "out" g) ->
     sheet_name_of "out" g <> sheet_name_of "out" "AAPL.csv.csv") /\
  excel_fault Examples.aapl_env "out/combined.xlsx" = None /\
  exists sheets,
    fs (snd (combine_csvs_to_excel Examples.aapl_env "out"
               (["AAPL.csv"] ++ "AAPL.csv.csv" :: ["GONE.csv"]) "out/combined.xlsx"
               Examples.twin_dir))
      !! "out/combined.xlsx" = Some (XlsxFile sheets) /\
    (exists s, s ∈ sheets /\ sheet_name s = sheet_name_of "out" "AAPL.csv.csv" /\
               sheet_df s = df /\ sheet_index s = false) /\
    (forall s, s ∈ sheets -> sheet_name s = sheet_name_of "out" "AAPL.csv.csv" ->
               sheet_df s = df).
Proof.
  intros df.
  assert (Hp : forall g, g ∈ ["GONE.csv"] ->
     is_Some (read_ok Examples.aapl_env (fs Examples.twin_dir) "out" g) ->
     sheet_name_of "out" g <> sheet_name_of "out" "AAPL.csv.csv").
  { intros g Hg _. apply list_elem_of_singleton in Hg as ->. discriminate. }
  split; [reflexivity|]. split; [exact Hp|]. split; [reflexivity|].
  exact (last_file_of_a_name_wins Examples.aapl_env "out" ["AAPL.csv"] "AAPL.csv.csv"
           ["GONE.csv"] "out/combined.xlsx" Examples.twin_dir df eq_refl Hp eq_refl).
Defined.

(** ** Which bodies are missing fields *)

(** X20. The operation returns [ERROR_MISSING_FIELDS] exactly when the
    status is 200 and the parsed body is an object without [data], or
    whose [data] is an object that has no [tradesTable], a falsy one, or
    one that is an object whose [headers] or [rows] is absent or falsy. A
    [data] that is [null] is not among them. *)
Theorem missing_fields_error_iff env url child_dir t st :
  fst (scrape_and_ingest_csv env url child_dir t st)
    = Return (Some ERROR_MISSING_FIELDS)
  <-> exists resp data,
        requests_get env url = inr resp /\ status_code resp = 200 /\
        json resp = inr data /\ reports_missing_fields data = true.
Proof.
  assert (Hkey : forall resp data,
    requests_get env url = inr resp -> status_code resp = 200 ->
    json resp = inr data ->
    (fst (fetch env url st) = Ret (Some ERROR_MISSING_FIELDS)
     <-> reports_missing_fields data = true)).
  { intros resp data Hr Hs Hj.
    unfold fetch, bind, try_except, lift, raise, ret, return_, print.
    apply Z.eqb_eq in Hs. rewrite Hr, Hs, Hj. cbv beta iota.
    change (negb true) with false. cbv beta iota.
    destruct data as [| | | | | |d]; try (split; discriminate).
    unfold py_get at 1, reports_missing_fields.
    destruct (dict_lookup d "data") as [inner|]; [|split; reflexivity].
    destruct inner as [| | | | | |inner]; try (split; discriminate).
    unfold py_get at 1.
    destruct (dict_lookup inner "tradesTable") as [table|]; [|split; reflexivity].
    destruct (truthy table) eqn:Htt;
      [|destruct table; try (split; reflexivity); rewrite Htt; split; reflexivity].
    change (negb true) with false. cbv beta iota.
    destruct table as [| | | | | |tb]; try (simpl; split; discriminate).
    rewrite Htt. change (negb true) with false. rewrite !orb_false_l.
    unfold py_get.
    destruct (dict_lookup tb "headers") as [h|];
      destruct (dict_lookup tb "rows") as [r|]; simpl;
      try destruct (truthy h); try destruct (truthy r); simpl;
      split; intros ?; first [reflexivity | congruence]. }
  rewrite scrape_by_stages. split.
  - destruct (fetch env url st) as [[hr|rv|e] s1] eqn:Hf.
    + destruct (bool_decide _); [|discriminate].
      destruct (write_csv _ _ _ _ s1) as [[u|rv|e] s2]; try discriminate.
      destruct (is_IOError e); discriminate.
    + simpl. intros H. injection H as ->.
      destruct (fetch_ret_cases _ _ _ _ _ Hf) as [[? _]|[[? _]|[_ H]]];
        [discriminate..|].
      destruct H as (resp & data & Hr & Hs & Hj). exists resp, data.
      repeat (split; [assumption|]).
      apply (Hkey _ _ Hr Hs Hj). reflexivity.
    + discriminate.
  - intros (resp & data & Hr & Hs & Hj & Hm).
    apply (Hkey _ _ Hr Hs Hj) in Hm.
    destruct (fetch env url st) as [[hr|rv|e] s1]; simpl in Hm; try discriminate.
    injection Hm as ->. reflexivity.
Qed.

(** ** Sheet names *)

(** X19. For a file named [t.csv], [t] without [/], the sheet name is
    what [replace] leaves of [t], whatever the directory is; it is the
    name with the extension stripped from its end exactly when [t] has no
    [.csv] in it. *)
Theorem sheet_name_of_csv_file child_dir t :
  has_sep t = false ->
  sheet_name_of child_dir (t +:+ ".csv") = replace_dot_csv t /\
  (sheet_name_of child_dir (t +:+ ".csv") = strip_csv_suffix (t +:+ ".csv")
   <-> replace_dot_csv t = t).
Proof.
  intros Hsep.
  assert (H : sheet_name_of child_dir (t +:+ ".csv") = replace_dot_csv t).
  { unfold sheet_name_of. rewrite basename_join by (rewrite has_sep_ext; assumption).
    apply (replace_dot_csv_ext (String.length t)). lia. }
  split; [exact H|]. rewrite H, strip_csv_suffix_ext. reflexivity.
Qed.

Lemma sheet_name_of_csv_file_witness :
  has_sep "BRK.B" = false /\
  sheet_name_of "output/20261103-101500" ("BRK.B" +:+ ".csv") = replace_dot_csv "BRK.B" /\
  (sheet_name_of "output/20261103-101500" ("BRK.B" +:+ ".csv")
     = strip_csv_suffix ("BRK.B" +:+ ".csv")
   <-> replace_dot_csv "BRK.B" = "BRK.B").
Proof.
  split; [reflexivity|].
  apply (sheet_name_of_csv_file "output/20261103-101500" "BRK.B"). reflexivity.
Defined.

(** ** From the ticker's file to its sheet *)

(** X18. The two operations compose: after a fetch-and-write that
    returned [SUCCESS] for a ticker [t] with no [/] and no [.csv] in it,
    the combiner run on [t.csv], when [pd.read_csv] makes a frame of the
    written table and the workbook write does not raise, returns [SUCCESS]
    and writes a workbook with one sheet, named [t], holding that frame,
    without index. *)
Theorem written_file_becomes_a_sheet env url child_dir t output_excel st st1 df :
  scrape_and_ingest_csv env url child_dir t st = (Return (Some SUCCESS), st1) ->
  (forall hd rows, api_table env url = Some (hd, rows) ->
     read_csv env (os_path_join child_dir (t +:+ ".csv")) (CsvFile (full_file hd rows))
       = inr df) ->
  has_sep t = false -> replace_dot_csv t = t ->
  excel_fault env output_excel = None ->
  combine_csvs_to_excel env child_dir [t +:+ ".csv"] output_excel st1
    = (Return (Some SUCCESS),
       mkState (<[output_excel := XlsxFile [mkSheet t df false]]> (fs st1))
               (console st1 ++ ["Success!: " +:+ output_excel])).
Proof.
  intros Hs Hread Hsep Hcsv Hx.
  destruct (scrape_success _ _ _ _ _ _ Hs) as (hd & rds & Ht & _ & _ & _ & ->).
  assert (Hok : read_ok env
                  (<[os_path_join child_dir (t +:+ ".csv") :=
                       CsvFile (dict_values hd
                                :: map (project (dict_keys hd)) (rev rds))]> (fs st))
                  child_dir (t +:+ ".csv") = Some df).
  { unfold read_ok. rewrite lookup_insert_eq.
    change (dict_values hd :: map (project (dict_keys hd)) (rev rds))
      with (full_file hd rds).
    rewrite (Hread _ _ Ht). reflexivity. }
  destruct (combine_spec env child_dir [t +:+ ".csv"] output_excel
              (mkState (<[os_path_join child_dir (t +:+ ".csv") :=
                            CsvFile (dict_values hd
                                     :: map (project (dict_keys hd)) (rev rds))]>
                          (fs st)) (console st)))
    as (ws & Hlen & ->).
  simpl in Hlen |- *. unfold skipped in Hlen. simpl in Hlen.
  rewrite Hok in Hlen |- *. simpl in Hlen |- *.
  destruct ws; [|discriminate]. rewrite Hx.
  destruct (sheet_name_of_plain_csv child_dir t Hsep Hcsv) as [-> _].
  reflexivity.
Qed.

Lemma written_file_becomes_a_sheet_witness :
  let st1 := snd (scrape_and_ingest_csv Examples.aapl_env "u" "out" "AAPL"
                    Examples.start) in
  let df := mkDataFrame [PStr "Date"; PStr "Close/Last"; PStr "Volume"]
              [[PStr "10/29/2026"; PStr "$271.40"; PStr "51,086,740"];
               [PStr "10/30/2026"; PStr ""; PStr "86,167,120"];
               [PStr "11/02/2026"; PStr "$270.04"; PStr "41,064,570"]] in
  scrape_and_ingest_csv Examples.aapl_env "u" "out" "AAPL" Examples.start
    = (Return (Some SUCCESS), st1) /\
  (forall hd rows, api_table Examples.aapl_env "u" = Some (hd, rows) ->
     read_csv Examples.aapl_env (os_path_join "out" ("AAPL" +:+ ".csv"))
       (CsvFile (full_file hd rows)) = inr df) /\
  has_sep "AAPL" = false /\ replace_dot_csv "AAPL" = "AAPL" /\
  excel_fault Examples.aapl_env "out/combined.xlsx" = None /\
  combine_csvs_to_excel Examples.aapl_env "out" ["AAPL" +:+ ".csv"]
    "out/combined.xlsx" st1
    = (Return (Some SUCCESS),
       mkState (<["out/combined.xlsx" := XlsxFile [mkSheet "AAPL" df false]]> (fs st1))
               (console st1 ++ ["Success!: " +:+ "out/combined.xlsx"])).
Proof.
  intros st1 df.
  assert (Hr : forall hd rows, api_table Examples.aapl_env "u" = Some (hd, rows) ->
     read_csv Examples.aapl_env (os_path_join "out" ("AAPL" +:+ ".csv"))
       (CsvFile (full_file hd rows)) = inr df).
  { intros hd rows H. injection H as <- <-. reflexivity. }
  split; [reflexivity|]. split; [exact Hr|].
  split; [reflexivity|]. split; [reflexivity|]. split; [reflexivity|].
  exact (written_file_becomes_a_sheet Examples.aapl_env "u" "out" "AAPL"
           "out/combined.xlsx" Examples.start st1 df eq_refl Hr eq_refl eq_refl eq_refl).
Defined.

(** ** The ticker loop and the file system *)

Lemma is_Some_insert (files : gmap string node) path nd p :
  is_Some (files !! p) -> is_Some (<[path := nd]> files !! p).
Proof.
  intros H. destruct (decide (path = p)) as [->|Hne].
  - rewrite lookup_insert_eq. eauto.
  - rewrite lookup_insert_ne by assumption. assumption.
Qed.

Lemma never_removes_bind {A B} (m : M A) (k : A -> M B) :
  never_removes m -> (forall a, never_removes (k a)) -> never_removes (bind m k).
Proof.
  intros Hm Hk st r st' p H Hp.
  apply bind_inv in H as [(a & st1 & H1 & H)|[(rv & H & _)|(e & H & _)]].
  - exact (Hk _ _ _ _ _ H (Hm _ _ _ _ H1 Hp)).
  - exact (Hm _ _ _ _ H Hp).
  - exact (Hm _ _ _ _ H Hp).
Qed.

Lemma never_removes_lift {A} (r : pyexn + A) : never_removes (lift r).
Proof. intros st res st' p H Hp. destruct r; injection H as _ <-; assumption. Qed.

Lemma never_removes_io_step env path k : never_removes (io_step env path k).
Proof.
  intros st r st' p H Hp.
  destruct (io_step_cases env path k st) as [E|[e E]]; rewrite E in H;
    injection H as _ <-; assumption.
Qed.

Lemma never_removes_io_flush env path k : never_removes (io_flush env path k).
Proof.
  intros st r st' p H Hp.
  destruct (io_flush_cases env path k st) as [E|[e E]]; rewrite E in H;
    injection H as _ <-; [assumption|].
  simpl. apply is_Some_insert. assumption.
Qed.

Lemma never_removes_writerow env path k rec : never_removes (writerow env path k rec).
Proof.
  apply never_removes_bind; [apply never_removes_io_flush|].
  intros _ st r st' p H Hp. injection H as _ <-. simpl.
  apply is_Some_insert. assumption.
Qed.

Lemma never_removes_write_rows env path headers rows : forall k,
  never_removes (write_rows env path headers k rows).
Proof.
  induction rows as [|row rows IH]; intros k; simpl.
  - intros st r st' p H Hp. injection H as _ <-. assumption.
  - apply never_removes_bind; [apply never_removes_lift|]. intros vs.
    apply never_removes_bind; [apply never_removes_writerow|]. intros _. apply IH.
Qed.

Lemma never_removes_write_csv env path headers rows :
  never_removes (write_csv env path headers rows).
Proof.
  unfold write_csv.
  apply never_removes_bind.
  { apply never_removes_bind; [apply never_removes_io_step|].
    intros _ st r st' p H Hp. injection H as _ <-. simpl.
    apply is_Some_insert. assumption. }
  intros _. apply never_removes_bind; [apply never_removes_lift|]. intros hs.
  apply never_removes_bind; [apply never_removes_writerow|]. intros _.
  apply never_removes_bind; [apply never_removes_lift|]. intros rrows.
  apply never_removes_bind; [apply never_removes_write_rows|]. intros _.
  apply never_removes_io_flush.
Qed.

Lemma scrape_never_removes env url child_dir t st c st' p :
  scrape_and_ingest_csv env url child_dir t st = (c, st') ->
  is_Some (fs st !! p) -> is_Some (fs st' !! p).
Proof.
  rewrite scrape_by_stages. intros H Hp.
  destruct (fetch env url st) as [[hr|rv|e] s1] eqn:Hf;
    pose proof (fetch_fs _ _ _ _ _ Hf) as Hfs; rewrite <- Hfs in Hp.
  - destruct (bool_decide _).
    + destruct (write_csv _ _ _ _ s1) as [[u|rv|e] s2] eqn:Hw;
        pose proof (never_removes_write_csv _ _ _ _ _ _ _ _ Hw Hp) as Hq;
        try destruct (is_IOError e); simplify_eq; assumption.
    + simplify_eq. assumption.
  - simplify_eq. assumption.
  - simplify_eq. assumption.
Qed.

(** One round of the loop, in terms of the call it makes. *)
Lemma process_ticker_run env five_weeks_ago current_date child_dir i t st :
  exists rc st1,
    scrape_and_ingest_csv env (url_for t five_weeks_ago current_date (randint env i))
      child_dir t st = (Return (Some rc), st1) /\
    process_ticker env five_weeks_ago current_date child_dir i t st
      = (Val tt, mkState (fs st1) (console st1 ++ [report_line t (Some rc)])).
Proof.
  destruct (process_ticker_spec env five_weeks_ago current_date child_dir i t st)
    as (rc & st1 & diag & Hs & _ & _ & Hp).
  exists rc, st1. split; [assumption|]. rewrite Hp. reflexivity.
Qed.

Lemma tickers_loop_frame env five_weeks_ago current_date child_dir ts : forall i st,
  exists st',
    tickers_loop env five_weeks_ago current_date child_dir i ts st = (Val tt, st') /\
    (forall p, p ∉ ticker_paths child_dir ts -> fs st' !! p = fs st !! p) /\
    (forall p, is_Some (fs st !! p) -> is_Some (fs st' !! p)).
Proof.
  induction ts as [|t ts IH]; intros i st; simpl.
  - exists st. auto.
  - destruct (process_ticker_run env five_weeks_ago current_date child_dir i t st)
      as (rc & st1 & Hs & Hp).
    rewrite (bind_val _ _ _ _ _ Hp).
    destruct (IH (S i) (mkState (fs st1) (console st1 ++ [report_line t (Some rc)])))
      as (st' & -> & Hframe & Hkeep).
    exists st'. split; [reflexivity|]. split.
    + intros p Hp'. apply not_elem_of_cons in Hp' as [Hne Hp'].
      rewrite (Hframe _ Hp'). simpl.
      exact (scrape_frame _ _ _ _ _ _ _ _ Hs Hne).
    + intros p Hp'. apply Hkeep. simpl.
      exact (scrape_never_removes _ _ _ _ _ _ _ _ Hs Hp').
Qed.

Lemma tickers_loop_app env five_weeks_ago current_date child_dir pre post :
  forall i st,
  tickers_loop env five_weeks_ago current_date child_dir i (pre ++ post) st
  = tickers_loop env five_weeks_ago current_date child_dir (i + length pre) post
      (snd (tickers_loop env five_weeks_ago current_date child_dir i pre st)).
Proof.
  induction pre as [|t pre IH]; intros i st; simpl.
  - rewrite Nat.add_0_r. reflexivity.
  - destruct (process_ticker_run env five_weeks_ago current_date child_dir i t st)
      as (rc & st1 & _ & Hp).
    rewrite !(bind_val _ _ _ _ _ Hp). rewrite IH, Nat.add_succ_r. reflexivity.
Qed.

(** X21. The ticker loop always runs to its end, removes nothing, and
    changes no path other than the files [<child_dir>/<T>.csv] of the
    upper-cased tickers of the list. *)
Theorem loop_touches_only_ticker_files env five_weeks_ago current_date child_dir
    tickers st :
  exists st',
    main_tickers env five_weeks_ago current_date child_dir tickers st = (Val tt, st') /\
    (forall p, p ∉ ticker_paths child_dir (map upper tickers) ->
               fs st' !! p = fs st !! p) /\
    (forall p, is_Some (fs st !! p) -> is_Some (fs st' !! p)).
Proof. unfold main_tickers. apply tickers_loop_frame. Qed.

(** X22. Tickers are independent: a ticker whose response is a
    well-formed table, in an existing directory and on a disk that does
    not fail for its file, has its whole table in its file when the loop
    ends, whatever happens to the tickers before and after it, as long as
    no later ticker of the list has the same name. *)
Theorem ticker_file_survives_the_loop env five_weeks_ago current_date child_dir
    pre t post i st resp hd rows :
  let url := url_for t five_weeks_ago current_date (randint env (i + length pre)) in
  let path := os_path_join child_dir (t +:+ ".csv") in
  requests_get env url = inr resp -> status_code resp = 200 ->
  api_table env url = Some (hd, rows) -> hd <> [] -> rows <> [] ->
  is_Some (fs st !! child_dir) ->
  io_fault env path = None ->
  path ∉ ticker_paths child_dir post ->
  exists st',
    tickers_loop env five_weeks_ago current_date child_dir i (pre ++ t :: post) st
      = (Val tt, st') /\
    fs st' !! path = Some (CsvFile (full_file hd rows)).
Proof.
  intros url path Hr Hs Ht Hhd Hrows Hdir Hio Hpost.
  rewrite tickers_loop_app.
  destruct (tickers_loop_frame env five_weeks_ago current_date child_dir pre i st)
    as (sa & -> & _ & Hkeep).
  simpl snd. simpl tickers_loop.
  assert (Hrun : scrape_and_ingest_csv env url child_dir t sa
                 = (Return (Some SUCCESS),
                    mkState (<[path := CsvFile (full_file hd rows)]> (fs sa))
                            (console sa))).
  { apply (scrape_table_run _ _ _ _ _ resp); try assumption.
    - apply Hkeep. assumption.
    - intros j e He. fold path in He. rewrite Hio in He. discriminate. }
  assert (Hp : process_ticker env five_weeks_ago current_date child_dir
                 (i + length pre) t sa
               = (Val tt,
                  mkState (<[path := CsvFile (full_file hd rows)]> (fs sa))
                          (console sa ++ [report_line t (Some SUCCESS)]))).
  { unfold process_ticker, bind, invoke. cbv zeta. fold url. rewrite Hrun.
    reflexivity. }
  rewrite (bind_val _ _ _ _ _ Hp).
  destruct (tickers_loop_frame env five_weeks_ago current_date child_dir post
              (S (i + length pre))
              (mkState (<[path := CsvFile (full_file hd rows)]> (fs sa))
                       (console sa ++ [report_line t (Some SUCCESS)])))
    as (st' & -> & Hframe & _).
  exists st'. split; [reflexivity|].
  rewrite (Hframe _ Hpost). simpl. apply lookup_insert_eq.
Qed.

Lemma ticker_file_survives_the_loop_witness :
  let env := Examples.aapl_env in
  let url := url_for "AAPL" "2026-09-29" "2026-11-03" (randint env (0 + length ["ZZ"])) in
  let path := os_path_join "out" ("AAPL" +:+ ".csv") in
  let resp := mkResponse 200 (inr Examples.aapl_body) in
  requests_get env url = inr resp /\ status_code resp = 200 /\
  exists hd rows,
    api_table env url = Some (hd, rows) /\ hd <> [] /\ rows <> [] /\
    is_Some (fs Examples.start !! "out") /\
    io_fault env path = None /\
    (path ∉ ticker_paths "out" ["F"]) /\
    exists st',
      tickers_loop env "2026-09-29" "2026-11-03" "out" 0 (["ZZ"] ++ "AAPL" :: ["F"])
        Examples.start = (Val tt, st') /\
      fs st' !! path = Some (CsvFile (full_file hd rows)).
Proof.
  intros env url path resp.
  assert (Hd : is_Some (fs Examples.start !! "out")) by (eexists; reflexivity).
  assert (Hp : path ∉ ticker_paths "out" ["F"]).
  { intros H. apply list_elem_of_singleton in H. discriminate. }
  split; [reflexivity|]. split; [reflexivity|].
  eexists _, _. split; [reflexivity|].
  split; [discriminate|]. split; [discriminate|]. split; [exact Hd|].
  split; [reflexivity|]. split; [exact Hp|].
  apply (ticker_file_survives_the_loop env "2026-09-29" "2026-11-03" "out"
           ["ZZ"] "AAPL" ["F"] 0%nat Examples.start resp);
    try reflexivity; try discriminate; [exact Hd | exact Hp].
Defined.
